(** * UDPv6Transport: channel registry and send path

    A shallow embedding of [src/cpp/transport/UDPv6Transport.cpp].

    The transport object is a record of its member variables.  The three
    socket registries are finite maps, as in the source ([std::map]).  What
    the operating system answers (interface enumeration, binding, datagram
    writes, group joins) is not decided by the transport: it is read from an
    [OS] record whose answers may depend on everything that happened before.
    The calls a method makes on the system while it runs are appended to a
    ghost [history]: the enumeration of the interfaces, each attempt to open
    and bind a socket, each write, read and group join, each [cancel] and
    [close], and the destruction of a socket that is still open, which closes
    it.  So "which writes were attempted" is a statement about data.
    [NormalizeLocator] returns a value and leaves the object alone; it is a
    function of the object and of what the enumeration answers, and appends
    nothing.

    Fallibility follows the source.  The calls it wraps in [try]/[catch]
    (opening and binding a socket, parsing an interface name, writing a
    datagram) may fail, and the handler of the source runs.  Joining a
    multicast group is [socket.set_option], which throws
    [boost::system::system_error] when the system refuses; [OpenInputChannel]
    calls it outside any [try] block, so a refused join leaves the method as
    an exception.  [cancel] and [close] act on sockets that the transport
    has opened and bound itself; they are recorded in the history and are
    taken to complete. *)

From Stdlib Require Import ZArith String List.
From stdpp Require Import gmap list.

Local Open Scope Z_scope.

(** ** Locators *)

(** [octet address[16]] *)
Record octets16 := Octets16 {
  a0 : Z; a1 : Z; a2 : Z; a3 : Z; a4 : Z; a5 : Z; a6 : Z; a7 : Z;
  a8 : Z; a9 : Z; a10 : Z; a11 : Z; a12 : Z; a13 : Z; a14 : Z; a15 : Z
}.

Definition octets (a : octets16) : list Z :=
  [a0 a; a1 a; a2 a; a3 a; a4 a; a5 a; a6 a; a7 a;
   a8 a; a9 a; a10 a; a11 a; a12 a; a13 a; a14 a; a15 a].

Definition octets_of_list (l : list Z) : octets16 :=
  Octets16 (nth 0 l 0) (nth 1 l 0) (nth 2 l 0) (nth 3 l 0)
           (nth 4 l 0) (nth 5 l 0) (nth 6 l 0) (nth 7 l 0)
           (nth 8 l 0) (nth 9 l 0) (nth 10 l 0) (nth 11 l 0)
           (nth 12 l 0) (nth 13 l 0) (nth 14 l 0) (nth 15 l 0).

(** [memset(address, 0x00, sizeof(address))] *)
Definition zero_octets : octets16 :=
  Octets16 0 0 0 0 0 0 0 0 0 0 0 0 0 0 0 0.

(** [Locator_t]: [int32_t kind; uint32_t port; octet address[16]]. *)
Record Locator_t := mkLocator {
  kind : Z;
  port : Z;
  address : octets16
}.

#[global] Instance octets16_eq_dec : EqDecision octets16.
Proof. solve_decision. Defined.

(** Modelled from the spec: [operator==] of [Locator_t] is declared in a
    header, outside this translation unit; the spec has locator equality
    exact, on kind, address and port. *)
#[global] Instance Locator_t_eq_dec : EqDecision Locator_t.
Proof. solve_decision. Defined.

#[global] Instance octets16_countable : Countable octets16.
Proof. refine (inj_countable' octets octets_of_list _). by intros []. Defined.

Definition Locator_to_tuple (l : Locator_t) : Z * Z * octets16 :=
  (kind l, port l, address l).

Definition Locator_of_tuple (p : Z * Z * octets16) : Locator_t :=
  let '(k, q, a) := p in mkLocator k q a.

(** Modelled from the spec: the ordering of [Locator_t] that
    [std::map<Locator_t, socket>] uses is declared in a header, outside this
    translation unit; the spec keys the granular registry "by full
    locator", with exact equality on kind, address and port. *)
#[global] Instance Locator_t_countable : Countable Locator_t.
Proof. refine (inj_countable' Locator_to_tuple Locator_of_tuple _). by intros []. Defined.

(** ** Native addresses, endpoints, sockets *)

(** [boost::asio::ip::address_v6]: sixteen bytes and a scope id;
    [operator==] compares both. *)
Record address_v6 := mkAddressV6 {
  to_bytes : octets16;
  scope_id : Z
}.

#[global] Instance address_v6_eq_dec : EqDecision address_v6.
Proof. solve_decision. Defined.

(** [ip::address_v6::any()] *)
Definition address_v6_any : address_v6 := mkAddressV6 zero_octets 0.

(** [ip::address_v6(bytes)] *)
Definition address_v6_of_bytes (b : octets16) : address_v6 := mkAddressV6 b 0.

(** [ip::address_v6::from_string(locator.to_IP6_string())]: the textual form
    of the sixteen address bytes, read back. *)
Definition Locator_address_v6 (locator : Locator_t) : address_v6 :=
  address_v6_of_bytes (address locator).

(** [ip::udp::endpoint]; the port is a [uint16_t]. *)
Record endpoint := mkEndpoint {
  ep_address : address_v6;
  ep_port : Z
}.

#[global] Instance endpoint_eq_dec : EqDecision endpoint.
Proof. solve_decision. Defined.

(** [static_cast<uint16_t>(port)] *)
Definition to_uint16 (p : Z) : Z := p mod 65536.

(** The options a socket was configured with before it was bound. *)
Inductive socket_options :=
  | OutputOptions (send_buffer_size : Z)
  | InputOptions (receive_buffer_size : Z) (reuse_address enable_loopback : bool).

#[global] Instance socket_options_eq_dec : EqDecision socket_options.
Proof. solve_decision. Defined.

(** An open, bound [boost::asio::ip::udp::socket]. *)
Record socket := mkSocket {
  native_handle : nat;
  options : socket_options;
  local_endpoint : endpoint
}.

#[global] Instance socket_eq_dec : EqDecision socket.
Proof. solve_decision. Defined.

(** ** Interface enumeration *)

(** Modelled from the spec: [IPFinder::info_IP] and its type tag are declared
    in [IPFinder.h], outside this translation unit; the spec has
    the finder as "a provider returning the list of local network addresses".
    The source reads three members of an entry: [type] (compared with
    [IPFinder::IP6], the one tag it names), [name] (the textual address) and
    [locator]. *)
Inductive IPTYPE := IP4 | IP6 | IP4_LOCAL | IP6_LOCAL.

#[global] Instance IPTYPE_eq_dec : EqDecision IPTYPE.
Proof. solve_decision. Defined.

Record info_IP := mkInfoIP {
  ip_type : IPTYPE;
  name : string;
  locator : Locator_t
}.

(** ** System calls and their record *)

Inductive event :=
  | EvBound (s : socket)
  | EvBindFailed (o : socket_options) (ep : endpoint)
  | EvSendTo (s : socket) (sendBuffer : list Z) (sendBufferSize : Z)
             (destination : endpoint) (sent : bool)
  | EvReceiveFrom (s : socket) (receiveBufferCapacity : Z)
                  (completion : option (Z * endpoint))
  | EvJoinGroup (s : socket) (group : address_v6) (joined : bool)
  | EvGetIPs
  | EvDestroy (s : socket)
  | EvCancel (s : socket)
  | EvClose (s : socket)
  | EvThreadStart
  | EvServiceStop
  | EvThreadJoin.

#[global] Instance event_eq_dec : EqDecision event.
Proof. solve_decision. Defined.

(** The environment.  Each answer may depend on the history so far. *)
Record OS := mkOS {
  (** [IPFinder::getIPs] *)
  IPFinder_getIPs : list event -> list info_IP;
  (** [ip::address_v6::from_string] on an interface name; [None] when it
      throws *)
  address_v6_from_string : string -> option address_v6;
  (** [socket.open], [set_option] and [bind] in a row: the native handle of
      the bound socket, or [None] for a [boost::system::system_error], which
      takes the socket under construction with it *)
  os_open_and_bind : list event -> socket_options -> endpoint -> option nat;
  (** [socket.send_to]: [false] when it throws *)
  os_send_to : list event -> socket -> list Z -> Z -> endpoint -> bool;
  (** what the completion handler of [socket.async_receive_from] is called
      with: the bytes transferred and the sender, or [None] for an error *)
  os_receive_from : list event -> socket -> Z -> option (Z * endpoint);
  (** [socket.set_option(ip::multicast::join_group(group))]: [false] when it
      throws *)
  os_join_group : list event -> socket -> address_v6 -> bool
}.

(** ** The transport object *)

Record UDPv6Transport := mkTransport {
  mMaxMessageSize : Z;
  mSendBufferSize : Z;
  mReceiveBufferSize : Z;
  mGranularMode : bool;
  mInterfaceWhiteList : list address_v6;
  mOutputSockets : gmap Z (list socket);
  mGranularOutputSockets : gmap Locator_t socket;
  mInputSockets : gmap Z socket;
  (** whether [ioServiceThread] holds a thread *)
  ioServiceThread : bool;
  (** ghost: the system calls issued so far, oldest first *)
  history : list event
}.

Definition set_mOutputSockets (f : gmap Z (list socket) -> gmap Z (list socket))
    (t : UDPv6Transport) : UDPv6Transport :=
  mkTransport (mMaxMessageSize t) (mSendBufferSize t) (mReceiveBufferSize t)
    (mGranularMode t) (mInterfaceWhiteList t)
    (f (mOutputSockets t)) (mGranularOutputSockets t) (mInputSockets t)
    (ioServiceThread t) (history t).

Definition set_mGranularOutputSockets
    (f : gmap Locator_t socket -> gmap Locator_t socket)
    (t : UDPv6Transport) : UDPv6Transport :=
  mkTransport (mMaxMessageSize t) (mSendBufferSize t) (mReceiveBufferSize t)
    (mGranularMode t) (mInterfaceWhiteList t)
    (mOutputSockets t) (f (mGranularOutputSockets t)) (mInputSockets t)
    (ioServiceThread t) (history t).

Definition set_mInputSockets (f : gmap Z socket -> gmap Z socket)
    (t : UDPv6Transport) : UDPv6Transport :=
  mkTransport (mMaxMessageSize t) (mSendBufferSize t) (mReceiveBufferSize t)
    (mGranularMode t) (mInterfaceWhiteList t)
    (mOutputSockets t) (mGranularOutputSockets t) (f (mInputSockets t))
    (ioServiceThread t) (history t).

Definition set_ioServiceThread (b : bool) (t : UDPv6Transport) : UDPv6Transport :=
  mkTransport (mMaxMessageSize t) (mSendBufferSize t) (mReceiveBufferSize t)
    (mGranularMode t) (mInterfaceWhiteList t)
    (mOutputSockets t) (mGranularOutputSockets t) (mInputSockets t)
    b (history t).

Definition record_event (e : event) (t : UDPv6Transport) : UDPv6Transport :=
  mkTransport (mMaxMessageSize t) (mSendBufferSize t) (mReceiveBufferSize t)
    (mGranularMode t) (mInterfaceWhiteList t)
    (mOutputSockets t) (mGranularOutputSockets t) (mInputSockets t)
    (ioServiceThread t) (history t ++ [e]).

(** ** State passing *)

(** Code outside a [try] block: the object before, the result and the object
    after. *)
Definition St (A : Type) : Type := UDPv6Transport -> A * UDPv6Transport.

Definition ret {A} (a : A) : St A := fun t => (a, t).

Definition bind {A B} (m : St A) (k : A -> St B) : St B :=
  fun t => let '(a, t') := m t in k a t'.

Definition get : St UDPv6Transport := fun t => (t, t).

Definition modify (f : UDPv6Transport -> UDPv6Transport) : St unit :=
  fun t => (tt, f t).

Definition emit (e : event) : St unit := modify (record_event e).

(** The body of a [try] block: [None] while a [boost::system::system_error]
    is in flight. *)
Definition Try (A : Type) : Type := St (option A).

Definition try_bind {A B} (m : Try A) (k : A -> Try B) : Try B :=
  bind m (fun r => match r with Some a => k a | None => ret None end).

(** [try { body } catch (boost::system::system_error const&) { handler }] *)
Definition try_catch {A} (body : Try A) (handler : St A) : St A :=
  bind body (fun r => match r with Some a => ret a | None => handler end).

Declare Scope st_scope.
Delimit Scope st_scope with st.
Notation "x <- m ;; k" := (bind m (fun x => k))
  (at level 100, m at next level, right associativity) : st_scope.
Notation "m ;; k" := (bind m (fun _ => k))
  (at level 100, right associativity) : st_scope.
Notation "x <-? m ;; k" := (try_bind m (fun x => k))
  (at level 100, m at next level, right associativity) : st_scope.

Local Open Scope st_scope.

(** ** Constants of the translation unit *)

Definition maximumUDPSocketSize : Z := 65536.
Definition maximumMessageSize : Z := 65500.

(** [std::map::find(k) != end()] *)
Definition contains `{Countable K} {V} (m : gmap K V) (k : K) : bool :=
  match m !! k with Some _ => true | None => false end.

(** [m[k].push_back(v)]: the entry is created empty when absent. *)
Definition push_back_at `{Countable K} {V} (k : K) (v : V)
    (m : gmap K (list V)) : gmap K (list V) :=
  <[k := default [] (m !! k) ++ [v]]> m.

(** [m.insert(pair(k, v))], [m.emplace(k, v)]: an existing entry stays. *)
Definition insert_if_absent `{Countable K} {V} (k : K) (v : V)
    (m : gmap K V) : gmap K V :=
  match m !! k with Some _ => m | None => <[k := v]> m end.

(** The object right after its constructor ran, from the members of the
    descriptor; the white list has been parsed already. *)
Definition constructed (maxMessageSize sendBufferSize receiveBufferSize : Z)
    (granularMode : bool) (interfaceWhiteList : list address_v6)
    : UDPv6Transport :=
  mkTransport maxMessageSize sendBufferSize receiveBufferSize granularMode
    interfaceWhiteList ∅ ∅ ∅ false [].

(** ** A small network, for the examples that close the file *)

Module Scenario.

Definition UDPv4 : Z := 1.
Definition UDPv6 : Z := 2.

(** [::1], [fe80::1], [2001:db8::1], [2001:db8::99] and the multicast group
    [ff02::1] *)
Definition loopback : octets16 := Octets16 0 0 0 0 0 0 0 0 0 0 0 0 0 0 0 1.
Definition link_local : octets16 := Octets16 254 128 0 0 0 0 0 0 0 0 0 0 0 0 0 1.
Definition global : octets16 := Octets16 32 1 13 184 0 0 0 0 0 0 0 0 0 0 0 1.
Definition elsewhere : octets16 := Octets16 32 1 13 184 0 0 0 0 0 0 0 0 0 0 0 153.
Definition all_nodes : octets16 := Octets16 255 2 0 0 0 0 0 0 0 0 0 0 0 0 0 1.

Definition of_uint32 (p : Z) : Locator_t := mkLocator UDPv4 p zero_octets.

(** A [push_back] that skips a locator the list holds already. *)
Definition push_back (l : list Locator_t) (x : Locator_t) : list Locator_t :=
  if decide (x ∈ l) then l else l ++ [x].

(** Four addresses on the host; two of them are tagged [IP6]. *)
Definition interfaces : list info_IP :=
  [ mkInfoIP IP4 "192.0.2.1"
      (mkLocator UDPv4 0 (Octets16 0 0 0 0 0 0 0 0 0 0 0 0 192 0 2 1));
    mkInfoIP IP6_LOCAL "::1" (mkLocator UDPv6 0 loopback);
    mkInfoIP IP6 "fe80::1" (mkLocator UDPv6 0 link_local);
    mkInfoIP IP6 "2001:db8::1" (mkLocator UDPv6 0 global) ].

Definition parse (s : string) : option address_v6 :=
  if String.eqb s "::1" then Some (address_v6_of_bytes loopback)
  else if String.eqb s "fe80::1" then Some (address_v6_of_bytes link_local)
  else if String.eqb s "2001:db8::1" then Some (address_v6_of_bytes global)
  else None.

(** Every bind succeeds, a write fails on a socket bound to the link-local
    interface, a read completes with a hundred bytes from [2001:db8::99],
    and every group join is accepted. *)
Definition os : OS :=
  mkOS (fun _ => interfaces)
       parse
       (fun h _ _ => Some (length h))
       (fun _ s _ _ _ =>
          negb (bool_decide (ep_address (local_endpoint s)
                             = address_v6_of_bytes link_local)))
       (fun _ _ _ => Some (100, mkEndpoint (address_v6_of_bytes elsewhere) 40000))
       (fun _ _ _ => true).

(** Transports as the constructor leaves them: the default descriptor, a
    white list of the two [IP6] interfaces, a white list of an address no
    interface has, and granular mode. *)
Definition shared : UDPv6Transport :=
  constructed maximumMessageSize maximumUDPSocketSize maximumUDPSocketSize false [].

Definition listed : UDPv6Transport :=
  constructed maximumMessageSize maximumUDPSocketSize maximumUDPSocketSize false
    [address_v6_of_bytes link_local; address_v6_of_bytes global].

Definition unmatched : UDPv6Transport :=
  constructed maximumMessageSize maximumUDPSocketSize maximumUDPSocketSize false
    [address_v6_of_bytes elsewhere].

Definition granular : UDPv6Transport :=
  constructed maximumMessageSize maximumUDPSocketSize maximumUDPSocketSize true [].

(** A descriptor whose message size exceeds its send buffer. *)
Definition oversized : UDPv6Transport :=
  constructed 65500 1024 maximumUDPSocketSize false [].

Definition any_7400 : Locator_t := mkLocator UDPv6 7400 zero_octets.
Definition global_7400 : Locator_t := mkLocator UDPv6 7400 global.
Definition all_nodes_7400 : Locator_t := mkLocator UDPv6 7400 all_nodes.
Definition foreign_7400 : Locator_t := mkLocator UDPv4 7400 global.
Definition foreign_any_7400 : Locator_t := mkLocator UDPv4 7400 zero_octets.
Definition remote_7410 : Locator_t := mkLocator UDPv6 7410 elsewhere.

(** Further transports, locators and systems. *)
Definition granular_listed : UDPv6Transport :=
  constructed maximumMessageSize maximumUDPSocketSize maximumUDPSocketSize true
    [address_v6_of_bytes link_local; address_v6_of_bytes global].

Definition any_7401 : Locator_t := mkLocator UDPv6 7401 zero_octets.
Definition any_72936 : Locator_t := mkLocator UDPv6 72936 zero_octets.
Definition elsewhere_7400 : Locator_t := mkLocator UDPv6 7400 elsewhere.
Definition sender_40000 : endpoint :=
  mkEndpoint (address_v6_of_bytes elsewhere) 40000.

(** A system that grants the first bind and refuses every later one. *)
Definition os_one_bind : OS :=
  mkOS (fun _ => interfaces)
       parse
       (fun h _ _ =>
          if existsb (fun e => match e with EvBound _ => true | _ => false end) h
          then None else Some 0%nat)
       (fun _ _ _ _ _ => true)
       (fun _ _ _ => None)
       (fun _ _ _ => true).

(** A system like [os], except that a socket that is a member of a group
    cannot join it again: the second join is refused. *)
Definition os_join_once : OS :=
  mkOS (fun _ => interfaces)
       parse
       (fun h _ _ => Some (length h))
       (fun _ _ _ _ _ => true)
       (fun _ _ _ => None)
       (fun h s group => negb (bool_decide (EvJoinGroup s group true ∈ h))).


End Scenario.

Section Transport.

Set Default Proof Using "Type".

(** [LOCATOR_KIND_UDPv6], a constant of a header, outside this translation
    unit. *)
Variable LOCATOR_KIND_UDPv6 : Z.

(** The converting constructor [Locator_t(uint32_t)] that
    [RemoteToMainLocal] reaches through [return false], declared in a header. *)
Variable Locator_t_of_uint32 : Z -> Locator_t.

(** The default constructor [Locator_t()] that [EndpointToLocator] starts
    from, declared in a header. *)
Variable Locator_t_default : Locator_t.

(** [LocatorList_t::push_back], declared in a header. *)
Variable LocatorList_push_back : list Locator_t -> Locator_t -> list Locator_t.

Variable os : OS.

(** *** Construction, initialisation, destruction *)

Definition init : St bool :=
  t <- get ;;
  if mMaxMessageSize t >? maximumMessageSize then ret false
  else if mMaxMessageSize t >? mSendBufferSize t then ret false
  else if mMaxMessageSize t >? mReceiveBufferSize t then ret false
  else
    modify (set_ioServiceThread true) ;;
    emit EvThreadStart ;;
    ret true.

(** The body of [~UDPv6Transport].  The destruction of the members, which
    follows it in the order the header declares them, is not part of it. *)
Definition destroy : St unit :=
  t <- get ;;
  if ioServiceThread t then
    emit EvServiceStop ;;
    emit EvThreadJoin
  else ret tt.

(** *** Predicates *)

Definition IsLocatorSupported (locator : Locator_t) : bool :=
  kind locator =? LOCATOR_KIND_UDPv6.

Definition IsInputChannelOpen (t : UDPv6Transport) (locator : Locator_t) : bool :=
  IsLocatorSupported locator && contains (mInputSockets t) (port locator).

Definition IsOutputChannelOpen (t : UDPv6Transport) (locator : Locator_t) : bool :=
  if negb (IsLocatorSupported locator) then false
  else if mGranularMode t then contains (mGranularOutputSockets t) locator
  else contains (mOutputSockets t) (port locator).

Definition IsMulticastAddress (locator : Locator_t) : bool :=
  a0 (address locator) =? 255.

Definition DoLocatorsMatch (t : UDPv6Transport) (left right : Locator_t) : bool :=
  if mGranularMode t then bool_decide (left = right)
  else port left =? port right.

Definition RemoteToMainLocal (remote : Locator_t) : Locator_t :=
  if negb (IsLocatorSupported remote) then Locator_t_of_uint32 0
  else
    let mainLocal := mkLocator (kind remote) (port remote) zero_octets in
    remote.

(** *** Interface filter *)

Definition GetIP6s (h : list event) : list info_IP :=
  filter (fun ip => ip_type ip = IP6) (IPFinder_getIPs os h).

Definition IsInterfaceAllowed (t : UDPv6Transport) (ip : address_v6) : bool :=
  match mInterfaceWhiteList t with
  | [] => true
  | _ =>
    if bool_decide (ip = address_v6_any) then true
    else bool_decide (ip ∈ mInterfaceWhiteList t)
  end.

(** *** Socket lifecycle *)

Definition open_and_bind (o : socket_options) (ep : endpoint) : Try socket :=
  t <- get ;;
  match os_open_and_bind os (history t) o ep with
  | Some h =>
    let s := mkSocket h o ep in
    emit (EvBound s) ;; ret (Some s)
  | None => emit (EvBindFailed o ep) ;; ret None
  end.

Definition OpenAndBindUnicastOutputSocket (ipAddress : address_v6) (port : Z)
    : Try socket :=
  t <- get ;;
  open_and_bind (OutputOptions (mSendBufferSize t))
                (mkEndpoint ipAddress (to_uint16 port)).

Definition OpenAndBindInputSocket (port : Z) : Try socket :=
  t <- get ;;
  open_and_bind (InputOptions (mReceiveBufferSize t) true true)
                (mkEndpoint address_v6_any (to_uint16 port)).

(** [ip::address_v6::from_string(infoIP.name)] inside the [try] block *)
Definition from_string (s : string) : Try address_v6 :=
  ret (address_v6_from_string os s).

(** The [for] loop of [OpenAndBindOutputSockets] over the local interfaces. *)
Fixpoint bind_allowed_interfaces (port : Z) (locNames : list info_IP) : Try unit :=
  match locNames with
  | [] => ret (Some tt)
  | infoIP :: rest =>
    ip <-? from_string (name infoIP) ;;
    t <- get ;;
    if IsInterfaceAllowed t ip then
      s <-? OpenAndBindUnicastOutputSocket ip port ;;
      modify (set_mOutputSockets (push_back_at port s)) ;;
      bind_allowed_interfaces port rest
    else bind_allowed_interfaces port rest
  end.

(** The sockets a registry gives up while they are open: their destructor
    closes them. *)
Fixpoint destroy_sockets (sockets : list socket) : St unit :=
  match sockets with
  | [] => ret tt
  | socket :: rest => emit (EvDestroy socket) ;; destroy_sockets rest
  end.

Definition OpenAndBindOutputSockets (port : Z) : St bool :=
  try_catch
    (t <- get ;;
     match mInterfaceWhiteList t with
     | [] =>
       s <-? OpenAndBindUnicastOutputSocket address_v6_any port ;;
       modify (set_mOutputSockets (push_back_at port s)) ;;
       ret (Some true)
     | _ =>
       let locNames := GetIP6s (history t) in
       emit EvGetIPs ;;
       _ <-? bind_allowed_interfaces port locNames ;;
       ret (Some true)
     end)
    ((* [mOutputSockets.erase(port)]: the sockets of the entry are
        destroyed with it *)
     t <- get ;;
     destroy_sockets (default [] (mOutputSockets t !! port)) ;;
     modify (set_mOutputSockets (delete port)) ;;
     ret false).

Definition OpenAndBindGranularOutputSocket (locator : Locator_t) : St bool :=
  t <- get ;;
  let ip := Locator_address_v6 locator in
  if negb (IsInterfaceAllowed t ip) then ret false
  else
    try_catch
      (s <-? OpenAndBindUnicastOutputSocket (Locator_address_v6 locator) (port locator) ;;
       (* [insert] leaves an existing entry alone; the socket it was handed
          is then destroyed with the pair *)
       t' <- get ;;
       (if contains (mGranularOutputSockets t') locator
        then emit (EvDestroy s) else ret tt) ;;
       modify (set_mGranularOutputSockets (insert_if_absent locator s)) ;;
       ret (Some true))
      (t' <- get ;;
       destroy_sockets (option_list (mGranularOutputSockets t' !! locator)) ;;
       modify (set_mGranularOutputSockets (delete locator)) ;;
       ret false).

Definition OpenAndBindInputSockets (port : Z) : St bool :=
  try_catch
    (s <-? OpenAndBindInputSocket port ;;
     (* [emplace] leaves an existing entry alone; the socket it was handed
        is then destroyed *)
     t' <- get ;;
     (if contains (mInputSockets t') port
      then emit (EvDestroy s) else ret tt) ;;
     modify (set_mInputSockets (insert_if_absent port s)) ;;
     ret (Some true))
    (t' <- get ;;
     destroy_sockets (option_list (mInputSockets t' !! port)) ;;
     modify (set_mInputSockets (delete port)) ;;
     ret false).

(** *** Channel registry *)

Definition OpenOutputChannel (locator : Locator_t) : St bool :=
  t <- get ;;
  if IsOutputChannelOpen t locator || negb (IsLocatorSupported locator)
  then ret false
  else if mGranularMode t then OpenAndBindGranularOutputSocket locator
  else OpenAndBindOutputSockets (port locator).

(** The result is [None] when the method is left by the exception of a
    refused group join. *)
Definition OpenInputChannel (locator : Locator_t) : Try bool :=
  t <- get ;;
  if negb (IsLocatorSupported locator) then ret (Some false)
  else
    success <- (if negb (IsInputChannelOpen t locator)
                then OpenAndBindInputSockets (port locator)
                else ret false) ;;
    t' <- get ;;
    if IsMulticastAddress locator && IsInputChannelOpen t' locator then
      (* [mInputSockets.at(locator.port)], which throws when there is no
         entry; there is one, by the test just made *)
      match mInputSockets t' !! port locator with
      | Some socket =>
        let group := Locator_address_v6 locator in
        (* [socket.set_option(ip::multicast::join_group(group))], outside
           any [try] block *)
        let joined := os_join_group os (history t') socket group in
        emit (EvJoinGroup socket group joined) ;;
        if joined then ret (Some success) else ret None
      | None => ret None
      end
    else ret (Some success).

(** [socket.cancel(); socket.close();] for each socket of a channel *)
Fixpoint cancel_and_close (sockets : list socket) : St unit :=
  match sockets with
  | [] => ret tt
  | socket :: rest =>
    emit (EvCancel socket) ;;
    emit (EvClose socket) ;;
    cancel_and_close rest
  end.

Definition CloseOutputChannel (locator : Locator_t) : St bool :=
  t <- get ;;
  if negb (IsOutputChannelOpen t locator) then ret false
  else if mGranularMode t then
    (* [mGranularOutputSockets.at(locator)]: present, by the test above *)
    match mGranularOutputSockets t !! locator with
    | Some socket =>
      emit (EvCancel socket) ;;
      emit (EvClose socket) ;;
      modify (set_mGranularOutputSockets (delete locator)) ;;
      ret true
    | None => ret false
    end
  else
    (* [mOutputSockets.at(locator.port)]: present, by the test above *)
    match mOutputSockets t !! port locator with
    | Some sockets =>
      cancel_and_close sockets ;;
      modify (set_mOutputSockets (delete (port locator))) ;;
      ret true
    | None => ret false
    end.

Definition CloseInputChannel (locator : Locator_t) : St bool :=
  t <- get ;;
  if negb (IsInputChannelOpen t locator) then ret false
  else
    (* [mInputSockets.at(locator.port)]: present, by the test above *)
    match mInputSockets t !! port locator with
    | Some socket =>
      emit (EvCancel socket) ;;
      emit (EvClose socket) ;;
      modify (set_mInputSockets (delete (port locator))) ;;
      ret true
    | None => ret false
    end.

(** *** Sending *)

Definition SendThroughSocket (sendBuffer : list Z) (sendBufferSize : Z)
    (remoteLocator : Locator_t) (socket : socket) : St bool :=
  t <- get ;;
  let remoteAddress := address remoteLocator in
  let destinationEndpoint :=
    mkEndpoint (address_v6_of_bytes remoteAddress) (to_uint16 (port remoteLocator)) in
  (* try { socket.send_to(...) } catch (const std::exception&) { return false; } *)
  let sent := os_send_to os (history t) socket sendBuffer sendBufferSize
                         destinationEndpoint in
  emit (EvSendTo socket sendBuffer sendBufferSize destinationEndpoint sent) ;;
  if sent then ret true else ret false.

(** [for (auto& socket : sockets) success |= SendThroughSocket(...)] *)
Fixpoint send_through_all (sendBuffer : list Z) (sendBufferSize : Z)
    (remoteLocator : Locator_t) (sockets : list socket) (success : bool)
    : St bool :=
  match sockets with
  | [] => ret success
  | socket :: rest =>
    sent <- SendThroughSocket sendBuffer sendBufferSize remoteLocator socket ;;
    send_through_all sendBuffer sendBufferSize remoteLocator rest (success || sent)
  end.

Definition Send (sendBuffer : list Z) (sendBufferSize : Z)
    (localLocator remoteLocator : Locator_t) : St bool :=
  t <- get ;;
  if negb (IsOutputChannelOpen t localLocator)
     || (sendBufferSize >? mSendBufferSize t)
  then ret false
  else
    let success := false in
    if mGranularMode t then
      (* [mGranularOutputSockets.at(localLocator)]: present, by the test above *)
      match mGranularOutputSockets t !! localLocator with
      | Some socket =>
        sent <- SendThroughSocket sendBuffer sendBufferSize remoteLocator socket ;;
        ret (success || sent)
      | None => ret false
      end
    else
      (* [mOutputSockets.at(localLocator.port)]: present, by the test above *)
      match mOutputSockets t !! port localLocator with
      | Some sockets =>
        send_through_all sendBuffer sendBufferSize remoteLocator sockets success
      | None => ret false
      end.

(** *** Receiving *)

Definition EndpointToLocator (ep : endpoint) : Locator_t :=
  let locator := Locator_t_default in
  mkLocator (kind locator) (ep_port ep) (to_bytes (ep_address ep)).

(** [Receive] registers one asynchronous read and waits for its completion;
    the model takes the completion the event loop delivers.  The payload
    bytes are not represented.  The result carries the two out-parameters
    [receiveBufferSize] and [remoteLocator] next to the returned flag. *)
Definition Receive (receiveBufferCapacity : Z) (receiveBufferSize : Z)
    (localLocator remoteLocator : Locator_t) : St (bool * Z * Locator_t) :=
  t <- get ;;
  if negb (IsInputChannelOpen t localLocator)
     || (receiveBufferCapacity <? mReceiveBufferSize t)
  then ret (false, receiveBufferSize, remoteLocator)
  else
    (* [mInputSockets.at(localLocator.port)]: present, by the test above *)
    match mInputSockets t !! port localLocator with
    | Some socket =>
      let completion := os_receive_from os (history t) socket receiveBufferCapacity in
      emit (EvReceiveFrom socket receiveBufferCapacity completion) ;;
      match completion with
      | None => ret (false, 0, remoteLocator)
      | Some (bytes_transferred, senderEndpoint) =>
        ret (true, bytes_transferred mod 2 ^ 32, EndpointToLocator senderEndpoint)
      end
    | None => ret (false, receiveBufferSize, remoteLocator)
    end.

(** *** Locator normalisation *)

Definition is_any_address (a : octets16) : bool :=
  (a0 a =? 0) && (a1 a =? 0) && (a2 a =? 0) && (a3 a =? 0) &&
  (a4 a =? 0) && (a5 a =? 0) && (a6 a =? 0) && (a7 a =? 0) &&
  (a8 a =? 0) && (a9 a =? 0) && (a10 a =? 0) && (a11 a =? 0) &&
  (a12 a =? 0) && (a13 a =? 0) && (a14 a =? 0) && (a15 a =? 0).

(** The [for] loop of [NormalizeLocator] over the local interfaces. *)
Fixpoint expand_over_interfaces (loc : Locator_t) (locNames : list info_IP)
    (locators : list Locator_t) : list Locator_t :=
  match locNames with
  | [] => locators
  | infoIP :: rest =>
    let newloc := mkLocator (kind loc) (port loc) (address (locator infoIP)) in
    expand_over_interfaces loc rest (LocatorList_push_back locators newloc)
  end.

Definition NormalizeLocator (t : UDPv6Transport) (locator : Locator_t)
    : list Locator_t :=
  let locators := [] in
  if is_any_address (address locator) then
    expand_over_interfaces locator (GetIP6s (history t)) locators
  else LocatorList_push_back locators locator.

(** *** Vocabulary of the properties *)

(** The object with further system calls on record and nothing else changed. *)
Definition record_events (evs : list event) (t : UDPv6Transport) : UDPv6Transport :=
  mkTransport (mMaxMessageSize t) (mSendBufferSize t) (mReceiveBufferSize t)
    (mGranularMode t) (mInterfaceWhiteList t)
    (mOutputSockets t) (mGranularOutputSockets t) (mInputSockets t)
    (ioServiceThread t) (history t ++ evs).

(** The sockets registered for a locator under the key scheme in force: the
    port in shared mode, the whole locator in granular mode. *)
Definition output_channel (t : UDPv6Transport) (locator : Locator_t)
    : option (list socket) :=
  if mGranularMode t then (fun s => [s]) <$> mGranularOutputSockets t !! locator
  else mOutputSockets t !! port locator.

(** The destination [SendThroughSocket] computes from a remote locator. *)
Definition destination_of (remoteLocator : Locator_t) : endpoint :=
  mkEndpoint (address_v6_of_bytes (address remoteLocator))
             (to_uint16 (port remoteLocator)).

(** What the system answers to one write after the other, each answer given
    with the earlier writes already on record. *)
Fixpoint send_outcomes (sendBuffer : list Z) (sendBufferSize : Z)
    (destination : endpoint) (h : list event) (sockets : list socket)
    : list bool :=
  match sockets with
  | [] => []
  | s :: rest =>
    let sent := os_send_to os h s sendBuffer sendBufferSize destination in
    sent :: send_outcomes sendBuffer sendBufferSize destination
              (h ++ [EvSendTo s sendBuffer sendBufferSize destination sent]) rest
  end.

Definition write_events (sendBuffer : list Z) (sendBufferSize : Z)
    (destination : endpoint) (sockets : list socket) (outcomes : list bool)
    : list event :=
  zip_with (fun s sent => EvSendTo s sendBuffer sendBufferSize destination sent)
           sockets outcomes.

(** The calls that shut the sockets of a channel. *)
Definition close_events (sockets : list socket) : list event :=
  flat_map (fun s => [EvCancel s; EvClose s]) sockets.

(** The object once [CloseOutputChannel] has shut [sockets] and erased the
    entry of [locator]. *)
Definition output_channel_erased (locator : Locator_t) (sockets : list socket)
    (t : UDPv6Transport) : UDPv6Transport :=
  if mGranularMode t
  then set_mGranularOutputSockets (delete locator)
         (record_events (close_events sockets) t)
  else set_mOutputSockets (delete (port locator))
         (record_events (close_events sockets) t).

(** *** Vocabulary of the further properties *)

(** The three registries of two objects are the same maps. *)
Definition same_registries (t t' : UDPv6Transport) : Prop :=
  mOutputSockets t' = mOutputSockets t /\
  mGranularOutputSockets t' = mGranularOutputSockets t /\
  mInputSockets t' = mInputSockets t.

(** The members the constructor copies from the descriptor. *)
Definition same_configuration (t t' : UDPv6Transport) : Prop :=
  mMaxMessageSize t' = mMaxMessageSize t /\
  mSendBufferSize t' = mSendBufferSize t /\
  mReceiveBufferSize t' = mReceiveBufferSize t /\
  mGranularMode t' = mGranularMode t /\
  mInterfaceWhiteList t' = mInterfaceWhiteList t.

(** [socks] appended to the entry of [port]; no entry is made for nothing. *)
Definition add_sockets (port : Z) (socks : list socket)
    (m : gmap Z (list socket)) : gmap Z (list socket) :=
  match socks with
  | [] => m
  | _ => <[port := default [] (m !! port) ++ socks]> m
  end.

(** An output socket as [OpenAndBindUnicastOutputSocket] makes it for a
    port, on an address the interface filter lets through. *)
Definition bound_for_output (t : UDPv6Transport) (port : Z) (s : socket) : Prop :=
  options s = OutputOptions (mSendBufferSize t) /\
  ep_port (local_endpoint s) = to_uint16 port /\
  IsInterfaceAllowed t (ep_address (local_endpoint s)) = true.

(** An input socket as [OpenAndBindInputSocket] makes it for a port. *)
Definition bound_for_input (t : UDPv6Transport) (port : Z) (s : socket) : Prop :=
  options s = InputOptions (mReceiveBufferSize t) true true /\
  local_endpoint s = mkEndpoint address_v6_any (to_uint16 port).

(** A bind that [OpenOutputChannel] may ask of the system for a port. *)
Definition allowed_bind_request (t : UDPv6Transport) (port : Z) (e : event) : Prop :=
  match e with
  | EvBound s => bound_for_output t port s
  | EvBindFailed o ep =>
    o = OutputOptions (mSendBufferSize t) /\
    ep_port ep = to_uint16 port /\
    IsInterfaceAllowed t (ep_address ep) = true
  | _ => False
  end.

(** Whether [OpenOutputChannel] gets as far as the enumeration of the
    interfaces: on a supported locator whose channel is not open, in shared
    mode, with a white list. *)
Definition enumerates_interfaces (t : UDPv6Transport) (locator : Locator_t) : bool :=
  negb (IsOutputChannelOpen t locator) && IsLocatorSupported locator &&
  negb (mGranularMode t) &&
  match mInterfaceWhiteList t with [] => false | _ => true end.

(** The sockets that a stretch of history has bound. *)
Definition bound_sockets (evs : list event) : list socket :=
  omap (fun e => match e with EvBound s => Some s | _ => None end) evs.

(** The addresses of the interfaces the filter lets through, in the order of
    the enumeration. *)
Definition allowed_addresses (t : UDPv6Transport) (locNames : list info_IP)
    : list address_v6 :=
  filter (fun ip => IsInterfaceAllowed t ip = true)
         (omap (fun infoIP => address_v6_from_string os (name infoIP)) locNames).

(** What holds of the registries between any two public calls. *)
Definition registry_invariant (t : UDPv6Transport) : Prop :=
  (forall port sockets, mOutputSockets t !! port = Some sockets ->
     sockets <> [] /\ Forall (bound_for_output t port) sockets) /\
  (forall loc s, mGranularOutputSockets t !! loc = Some s ->
     bound_for_output t (port loc) s /\
     ep_address (local_endpoint s) = Locator_address_v6 loc) /\
  (forall port s, mInputSockets t !! port = Some s -> bound_for_input t port s) /\
  (if mGranularMode t then mOutputSockets t = ∅
   else mGranularOutputSockets t = ∅).

(** The public calls that change the object or talk to the system. *)
Inductive call :=
  | CallInit
  | CallOpenOutputChannel (locator : Locator_t)
  | CallOpenInputChannel (locator : Locator_t)
  | CallCloseOutputChannel (locator : Locator_t)
  | CallCloseInputChannel (locator : Locator_t)
  | CallSend (sendBuffer : list Z) (sendBufferSize : Z)
             (localLocator remoteLocator : Locator_t)
  | CallReceive (receiveBufferCapacity receiveBufferSize : Z)
                (localLocator remoteLocator : Locator_t).

Definition run_call (c : call) (t : UDPv6Transport) : UDPv6Transport :=
  match c with
  | CallInit => snd (init t)
  | CallOpenOutputChannel l => snd (OpenOutputChannel l t)
  | CallOpenInputChannel l => snd (OpenInputChannel l t)
  | CallCloseOutputChannel l => snd (CloseOutputChannel l t)
  | CallCloseInputChannel l => snd (CloseInputChannel l t)
  | CallSend b n l r => snd (Send b n l r t)
  | CallReceive c n l r => snd (Receive c n l r t)
  end.

(** A sequence of calls, first call first. *)
Definition run_calls (cs : list call) (t : UDPv6Transport) : UDPv6Transport :=
  fold_left (fun t c => run_call c t) cs t.

(** ** Properties *)

Ltac st_unfold :=
  unfold try_catch, try_bind, emit, modify, get, bind, ret in *.

Lemma record_events_nil t : record_events [] t = t.
Proof. destruct t; unfold record_events; simpl. by rewrite app_nil_r. Qed.

Lemma record_events_app evs1 evs2 t :
  record_events evs2 (record_events evs1 t) = record_events (evs1 ++ evs2) t.
Proof. unfold record_events; simpl. by rewrite app_assoc. Qed.

Lemma record_event_events e t : record_event e t = record_events [e] t.
Proof. reflexivity. Qed.

Lemma contains_true `{Countable K} {V} (m : gmap K V) k :
  contains m k = true <-> is_Some (m !! k).
Proof.
  unfold contains. destruct (m !! k); split; intros Hx; done.
Qed.

Lemma contains_false `{Countable K} {V} (m : gmap K V) k :
  contains m k = false <-> m !! k = None.
Proof. unfold contains. by destruct (m !! k). Qed.

Lemma contains_delete `{Countable K} {V} (m : gmap K V) k :
  contains (delete k m) k = false.
Proof. apply contains_false, lookup_delete_eq. Qed.

Lemma IsLocatorSupported_false locator :
  IsLocatorSupported locator = false <-> kind locator ≠ LOCATOR_KIND_UDPv6.
Proof. unfold IsLocatorSupported. apply Z.eqb_neq. Qed.

Lemma IsLocatorSupported_true locator :
  IsLocatorSupported locator = true <-> kind locator = LOCATOR_KIND_UDPv6.
Proof. unfold IsLocatorSupported. apply Z.eqb_eq. Qed.

Lemma IsOutputChannelOpen_foreign t locator :
  IsLocatorSupported locator = false -> IsOutputChannelOpen t locator = false.
Proof. intros Hk. unfold IsOutputChannelOpen. by rewrite Hk. Qed.

Lemma IsInputChannelOpen_foreign t locator :
  IsLocatorSupported locator = false -> IsInputChannelOpen t locator = false.
Proof. intros Hk. unfold IsInputChannelOpen. by rewrite Hk. Qed.

Lemma OpenOutputChannel_foreign t locator :
  IsLocatorSupported locator = false -> OpenOutputChannel locator t = (false, t).
Proof.
  intros Hk. unfold OpenOutputChannel. st_unfold.
  by rewrite Hk, orb_true_r.
Qed.

Lemma OpenInputChannel_foreign t locator :
  IsLocatorSupported locator = false -> OpenInputChannel locator t = (Some false, t).
Proof. intros Hk. unfold OpenInputChannel. st_unfold. by rewrite Hk. Qed.

Lemma CloseOutputChannel_not_open t locator :
  IsOutputChannelOpen t locator = false -> CloseOutputChannel locator t = (false, t).
Proof. intros Ho. unfold CloseOutputChannel. st_unfold. by rewrite Ho. Qed.

Lemma CloseInputChannel_not_open t locator :
  IsInputChannelOpen t locator = false -> CloseInputChannel locator t = (false, t).
Proof. intros Ho. unfold CloseInputChannel. st_unfold. by rewrite Ho. Qed.

(** C2. For a locator whose kind is not UDPv6, each of the six channel
    operations reports failure, and the four that could change the object
    return it as it was: neither registry changes and no system call is
    made. *)
Theorem foreign_kind_channel_operations_fail (t : UDPv6Transport) (locator : Locator_t) :
  kind locator ≠ LOCATOR_KIND_UDPv6 ->
  OpenOutputChannel locator t = (false, t) /\
  OpenInputChannel locator t = (Some false, t) /\
  CloseOutputChannel locator t = (false, t) /\
  CloseInputChannel locator t = (false, t) /\
  IsOutputChannelOpen t locator = false /\
  IsInputChannelOpen t locator = false.
Proof.
  intros Hk%IsLocatorSupported_false.
  repeat split.
  - by apply OpenOutputChannel_foreign.
  - by apply OpenInputChannel_foreign.
  - by apply CloseOutputChannel_not_open, IsOutputChannelOpen_foreign.
  - by apply CloseInputChannel_not_open, IsInputChannelOpen_foreign.
  - by apply IsOutputChannelOpen_foreign.
  - by apply IsInputChannelOpen_foreign.
Qed.

(** *** Sending *)

Lemma SendThroughSocket_eq sendBuffer sendBufferSize remoteLocator s t :
  let sent := os_send_to os (history t) s sendBuffer sendBufferSize
                         (destination_of remoteLocator) in
  SendThroughSocket sendBuffer sendBufferSize remoteLocator s t =
  (sent, record_events
           [EvSendTo s sendBuffer sendBufferSize (destination_of remoteLocator) sent] t).
Proof.
  unfold SendThroughSocket, destination_of. st_unfold. simpl.
  by destruct (os_send_to _ _ _ _ _ _).
Qed.

Lemma send_through_all_eq sendBuffer sendBufferSize remoteLocator sockets :
  forall t success,
  let outcomes := send_outcomes sendBuffer sendBufferSize
                    (destination_of remoteLocator) (history t) sockets in
  send_through_all sendBuffer sendBufferSize remoteLocator sockets success t =
  (success || existsb id outcomes,
   record_events (write_events sendBuffer sendBufferSize
                    (destination_of remoteLocator) sockets outcomes) t).
Proof.
  induction sockets as [|s rest IH]; intros t success; simpl.
  - unfold ret. by rewrite orb_false_r, record_events_nil.
  - unfold bind at 1. rewrite SendThroughSocket_eq. simpl.
    rewrite IH. simpl. rewrite record_events_app. simpl.
    by rewrite orb_assoc.
Qed.

Lemma send_outcomes_length sendBuffer sendBufferSize destination sockets :
  forall h,
  length (send_outcomes sendBuffer sendBufferSize destination h sockets)
  = length sockets.
Proof. induction sockets as [|s rest IH]; intros h; simpl; [done|by rewrite IH]. Qed.

Lemma write_events_sockets sendBuffer sendBufferSize destination sockets :
  forall outcomes, length outcomes = length sockets ->
  Forall2 (fun s e => exists sent,
             e = EvSendTo s sendBuffer sendBufferSize destination sent)
          sockets (write_events sendBuffer sendBufferSize destination sockets outcomes).
Proof.
  induction sockets as [|s rest IH]; intros [|o outcomes] Hlen; simpl in *;
    try done; try constructor.
  - by exists o.
  - apply IH. lia.
Qed.

(** Each outcome is the answer of the system to that very write, asked with
    the earlier writes of the same call on record. *)
Lemma send_outcomes_lookup sendBuffer sendBufferSize destination sockets :
  forall h (i : nat) s,
  sockets !! i = Some s ->
  send_outcomes sendBuffer sendBufferSize destination h sockets !! i =
  Some (os_send_to os
          (h ++ take i (write_events sendBuffer sendBufferSize destination sockets
                          (send_outcomes sendBuffer sendBufferSize destination h sockets)))
          s sendBuffer sendBufferSize destination).
Proof.
  induction sockets as [|s0 rest IH]; intros h i s Hi; [done|].
  destruct i as [|i]; simpl in *.
  - injection Hi as ->. by rewrite app_nil_r.
  - rewrite (IH _ _ _ Hi). by rewrite <- app_assoc.
Qed.

Lemma existsb_id_true (l : list bool) : existsb id l = true <-> true ∈ l.
Proof.
  rewrite existsb_exists, list_elem_of_In. split.
  - intros [x [Hin Hx]]. unfold id in Hx. by subst.
  - intros Hin. by exists true.
Qed.

Lemma output_channel_open t locator :
  IsOutputChannelOpen t locator = true ->
  IsLocatorSupported locator = true /\
  exists sockets, output_channel t locator = Some sockets.
Proof.
  unfold IsOutputChannelOpen, output_channel.
  destruct (IsLocatorSupported locator); simpl; [|done].
  destruct (mGranularMode t); intros [x Hx]%contains_true; split; try done.
  - exists [x]. by rewrite Hx.
  - by exists x.
Qed.

(** C1. [Send] reports failure and leaves the object as it was, with no
    write on record, when the output channel of the local locator is not open
    or the length exceeds the send buffer size.  Otherwise it issues one
    write per socket registered under the channel key, in order and whatever
    the earlier writes answered, changes nothing else, and reports success
    exactly when one of these writes succeeded. *)
Theorem Send_fans_out (sendBuffer : list Z) (sendBufferSize : Z)
    (localLocator remoteLocator : Locator_t) (t : UDPv6Transport) :
  (IsOutputChannelOpen t localLocator = false \/ mSendBufferSize t < sendBufferSize ->
   Send sendBuffer sendBufferSize localLocator remoteLocator t = (false, t)) /\
  (IsOutputChannelOpen t localLocator = true ->
   sendBufferSize <= mSendBufferSize t ->
   exists (sockets : list socket) (outcomes : list bool) (success : bool),
     let writes := write_events sendBuffer sendBufferSize
                     (destination_of remoteLocator) sockets outcomes in
     output_channel t localLocator = Some sockets /\
     Send sendBuffer sendBufferSize localLocator remoteLocator t
       = (success, record_events writes t) /\
     length outcomes = length sockets /\
     Forall2 (fun s e => exists sent,
                e = EvSendTo s sendBuffer sendBufferSize
                      (destination_of remoteLocator) sent)
             sockets writes /\
     (forall (i : nat) s, sockets !! i = Some s ->
        outcomes !! i =
        Some (os_send_to os (history t ++ take i writes) s sendBuffer
                sendBufferSize (destination_of remoteLocator))) /\
     (success = true <-> true ∈ outcomes)).
Proof.
  split.
  - intros Hfail. unfold Send. st_unfold.
    destruct Hfail as [->|Hlen]; [done|].
    apply Z.gtb_lt in Hlen. by rewrite Hlen, orb_true_r.
  - intros Hopen Hlen.
    destruct (output_channel_open _ _ Hopen) as [_ [sockets Hch]].
    set (outcomes := send_outcomes sendBuffer sendBufferSize
                       (destination_of remoteLocator) (history t) sockets).
    exists sockets, outcomes, (existsb id outcomes). simpl.
    assert (Hol : length outcomes = length sockets)
      by apply send_outcomes_length.
    split; [done|]. split; [|split; [done|split; [|split]]].
    + unfold Send. st_unfold. rewrite Hopen. simpl.
      assert (Hgt : (sendBufferSize >? mSendBufferSize t) = false)
        by (rewrite Z.gtb_ltb; apply Z.ltb_ge; lia).
      rewrite Hgt. unfold output_channel in Hch.
      destruct (mGranularMode t).
      * destruct (mGranularOutputSockets t !! localLocator) as [s|] eqn:Hs;
          [|done]. simpl in Hch. injection Hch as <-.
        pose proof (SendThroughSocket_eq sendBuffer sendBufferSize remoteLocator s t) as Hs1.
        simpl in Hs1. unfold bind, ret in Hs1. rewrite Hs1.
        subst outcomes. simpl. by rewrite orb_false_r.
      * rewrite Hch.
        pose proof (send_through_all_eq sendBuffer sendBufferSize remoteLocator sockets t false) as Hall.
        simpl in Hall. by rewrite Hall.
    + by apply write_events_sockets.
    + intros i s Hi. by apply send_outcomes_lookup.
    + apply existsb_id_true.
Qed.


(** *** Initialisation *)

Lemma init_true t :
  mMaxMessageSize t <= 65500 ->
  mMaxMessageSize t <= mSendBufferSize t ->
  mMaxMessageSize t <= mReceiveBufferSize t ->
  init t = (true, record_events [EvThreadStart] (set_ioServiceThread true t)).
Proof.
  intros H1 H2 H3. unfold init, maximumMessageSize. st_unfold.
  rewrite !Z.gtb_ltb.
  destruct (Z.ltb_spec 65500 (mMaxMessageSize t)); [lia|].
  destruct (Z.ltb_spec (mSendBufferSize t) (mMaxMessageSize t)); [lia|].
  destruct (Z.ltb_spec (mReceiveBufferSize t) (mMaxMessageSize t)); [lia|].
  done.
Qed.

Lemma init_false t :
  65500 < mMaxMessageSize t \/
  mSendBufferSize t < mMaxMessageSize t \/
  mReceiveBufferSize t < mMaxMessageSize t ->
  init t = (false, t).
Proof.
  intros H. unfold init, maximumMessageSize. st_unfold.
  rewrite !Z.gtb_ltb.
  destruct (Z.ltb_spec 65500 (mMaxMessageSize t)); [done|].
  destruct (Z.ltb_spec (mSendBufferSize t) (mMaxMessageSize t)); [done|].
  destruct (Z.ltb_spec (mReceiveBufferSize t) (mMaxMessageSize t)); [done|].
  lia.
Qed.

(** C4. [init] reports success exactly when the maximum message size is at
    most 65500, at most the send buffer size and at most the receive buffer
    size.  On a violation it returns with the object as it was: the thread
    handle is not set and no thread start is on record, so a destructor that
    runs next has nothing to join.  On success the thread is started, and the
    destructor stops the service and joins it. *)
Theorem init_validates_before_starting (t : UDPv6Transport) :
  (fst (init t) = true <->
   mMaxMessageSize t <= 65500 /\
   mMaxMessageSize t <= mSendBufferSize t /\
   mMaxMessageSize t <= mReceiveBufferSize t) /\
  (fst (init t) = false -> snd (init t) = t) /\
  (fst (init t) = false -> ioServiceThread t = false ->
   destroy (snd (init t)) = (tt, t)) /\
  (fst (init t) = true ->
   snd (init t) = record_events [EvThreadStart] (set_ioServiceThread true t) /\
   snd (destroy (snd (init t))) =
   record_events [EvThreadStart; EvServiceStop; EvThreadJoin]
                 (set_ioServiceThread true t)).
Proof.
  destruct (Z_le_gt_dec (mMaxMessageSize t) 65500) as [H1|H1];
  [destruct (Z_le_gt_dec (mMaxMessageSize t) (mSendBufferSize t)) as [H2|H2];
   [destruct (Z_le_gt_dec (mMaxMessageSize t) (mReceiveBufferSize t)) as [H3|H3]|]|].
  1: { rewrite (init_true t H1 H2 H3). simpl. repeat split; try done.
       by rewrite !record_event_events, !record_events_app. }
  all: rewrite (init_false t) by lia; simpl; repeat split; try done; try lia.
  all: intros _ Hth; unfold destroy; st_unfold; by rewrite Hth.
Qed.

(** *** Opening a channel that is open *)

Lemma IsInputChannelOpen_true t locator :
  IsInputChannelOpen t locator = true <->
  IsLocatorSupported locator = true /\ is_Some (mInputSockets t !! port locator).
Proof.
  unfold IsInputChannelOpen. rewrite andb_true_iff, contains_true. done.
Qed.

Lemma IsOutputChannelOpen_true t locator :
  IsOutputChannelOpen t locator = true <->
  IsLocatorSupported locator = true /\ is_Some (output_channel t locator).
Proof.
  unfold IsOutputChannelOpen, output_channel.
  destruct (IsLocatorSupported locator); simpl.
  - destruct (mGranularMode t); rewrite contains_true, ?fmap_is_Some;
      (split; [by split | by intros [_ ?]]).
  - split; [done | by intros [? _]].
Qed.

Lemma OpenOutputChannel_open t locator :
  is_Some (output_channel t locator) ->
  OpenOutputChannel locator t = (false, t).
Proof.
  intros Hreg.
  destruct (IsLocatorSupported locator) eqn:Hk.
  - assert (Hopen : IsOutputChannelOpen t locator = true)
      by by apply IsOutputChannelOpen_true.
    unfold OpenOutputChannel. st_unfold. by rewrite Hopen.
  - by apply OpenOutputChannel_foreign.
Qed.

(** What [OpenInputChannel] does for a supported locator whose port has an
    entry: no bind, and a group join when the address is a multicast one.
    The call then returns [false] if the join is accepted and is left by the
    exception if it is refused. *)
Lemma OpenInputChannel_open t locator s :
  IsLocatorSupported locator = true ->
  mInputSockets t !! port locator = Some s ->
  OpenInputChannel locator t =
  if IsMulticastAddress locator then
    let group := Locator_address_v6 locator in
    let joined := os_join_group os (history t) s group in
    (if joined then Some false else None,
     record_events [EvJoinGroup s group joined] t)
  else (Some false, t).
Proof.
  intros Hk Hs.
  assert (Hopen : IsInputChannelOpen t locator = true)
    by (apply IsInputChannelOpen_true; eauto).
  unfold OpenInputChannel. st_unfold. rewrite Hk, Hopen. simpl.
  rewrite Hopen, Hs. destruct (IsMulticastAddress locator); simpl; [|done].
  by destruct (os_join_group os (history t) s (Locator_address_v6 locator)).
Qed.

(** C5, as the code has it. Opening an output channel whose key already has
    an entry returns [false] and the object as it was.  Opening an input
    channel whose port already has an entry never succeeds, binds nothing and
    leaves the three registries as they were.  It returns [false] when the
    locator has a foreign kind or an address that is not a multicast one, and
    when the group join it makes on the registered socket is accepted; when
    that join is refused the call does not return: the exception of the join
    leaves it. *)
Theorem reopening_never_succeeds_and_keeps_sockets
    (locator : Locator_t) (t : UDPv6Transport) :
  (is_Some (output_channel t locator) ->
   OpenOutputChannel locator t = (false, t)) /\
  (forall s, mInputSockets t !! port locator = Some s ->
   exists outcome joins,
     OpenInputChannel locator t = (outcome, record_events joins t) /\
     (joins = [] /\ outcome = Some false \/
      IsLocatorSupported locator = true /\
      IsMulticastAddress locator = true /\
      exists joined,
        joined = os_join_group os (history t) s (Locator_address_v6 locator) /\
        joins = [EvJoinGroup s (Locator_address_v6 locator) joined] /\
        outcome = (if joined then Some false else None)) /\
     mInputSockets (record_events joins t) !! port locator = Some s /\
     mInputSockets (record_events joins t) = mInputSockets t /\
     mOutputSockets (record_events joins t) = mOutputSockets t /\
     mGranularOutputSockets (record_events joins t) = mGranularOutputSockets t) /\
  (forall s, mInputSockets t !! port locator = Some s ->
   IsLocatorSupported locator = false \/ IsMulticastAddress locator = false ->
   OpenInputChannel locator t = (Some false, t)).
Proof.
  split; [apply OpenOutputChannel_open|]. split.
  - intros s Hs.
    destruct (IsLocatorSupported locator) eqn:Hk.
    + rewrite (OpenInputChannel_open t locator s Hk Hs).
      destruct (IsMulticastAddress locator) eqn:Hm.
      * eexists _, _. split; [reflexivity|]. split; [|by repeat split].
        right. split; [done|]. split; [done|]. by eexists.
      * exists (Some false), []. rewrite record_events_nil.
        split; [done|]. split; [by left|]. by repeat split.
    + rewrite (OpenInputChannel_foreign t locator Hk).
      exists (Some false), []. rewrite record_events_nil.
      split; [done|]. split; [by left|]. by repeat split.
  - intros s Hs [Hk|Hm].
    + by apply OpenInputChannel_foreign.
    + destruct (IsLocatorSupported locator) eqn:Hk.
      * by rewrite (OpenInputChannel_open t locator s Hk Hs), Hm.
      * by apply OpenInputChannel_foreign.
Qed.

(** C7, as the code has it. A further [OpenInputChannel] with a supported
    multicast locator whose port has an entry binds nothing and adds no
    entry: it asks the socket registered for the port to join the group.
    When the system accepts the join the call returns [false], the answer
    that reports no new channel; when the system refuses it, as it does for a
    group the socket is a member of already, the exception of the join
    leaves the call. *)
Theorem repeated_multicast_open_joins_unguarded
    (locator : Locator_t) (t : UDPv6Transport) (s : socket) :
  kind locator = LOCATOR_KIND_UDPv6 ->
  a0 (address locator) = 255 ->
  mInputSockets t !! port locator = Some s ->
  let group := Locator_address_v6 locator in
  let joined := os_join_group os (history t) s group in
  OpenInputChannel locator t =
    (if joined then Some false else None,
     record_events [EvJoinGroup s group joined] t) /\
  mInputSockets (record_events [EvJoinGroup s group joined] t) = mInputSockets t.
Proof.
  intros Hk%IsLocatorSupported_true Hm Hs. simpl.
  rewrite (OpenInputChannel_open t locator s Hk Hs).
  unfold IsMulticastAddress. rewrite Hm. done.
Qed.

(** *** Opening a channel that is not open *)

Lemma open_and_bind_eq o ep t :
  open_and_bind o ep t =
  match os_open_and_bind os (history t) o ep with
  | Some h => (Some (mkSocket h o ep), record_events [EvBound (mkSocket h o ep)] t)
  | None => (None, record_events [EvBindFailed o ep] t)
  end.
Proof.
  unfold open_and_bind. st_unfold.
  by destruct (os_open_and_bind os (history t) o ep).
Qed.

Lemma destroy_sockets_eq sockets :
  forall t, destroy_sockets sockets t = (tt, record_events (map EvDestroy sockets) t).
Proof.
  induction sockets as [|s rest IH]; intros t; simpl.
  - unfold ret. by rewrite record_events_nil.
  - st_unfold. rewrite IH. by rewrite record_event_events, record_events_app.
Qed.

Lemma OpenAndBindInputSockets_fresh port t :
  mInputSockets t !! port = None ->
  let o := InputOptions (mReceiveBufferSize t) true true in
  let ep := mkEndpoint address_v6_any (to_uint16 port) in
  OpenAndBindInputSockets port t =
  match os_open_and_bind os (history t) o ep with
  | Some h =>
    (true, set_mInputSockets (insert port (mkSocket h o ep))
             (record_events [EvBound (mkSocket h o ep)] t))
  | None => (false, record_events [EvBindFailed o ep] t)
  end.
Proof.
  intros Hnone. simpl.
  unfold OpenAndBindInputSockets, OpenAndBindInputSocket, try_catch, try_bind.
  unfold bind at 1. unfold bind at 1. unfold bind at 1. unfold get at 1.
  rewrite open_and_bind_eq.
  destruct (os_open_and_bind os (history t) _ _) as [h|].
  - st_unfold. simpl. unfold contains, insert_if_absent. simpl.
    rewrite Hnone. unfold set_mInputSockets. simpl. by rewrite Hnone.
  - unfold bind at 1, get at 1. simpl. rewrite Hnone. simpl.
    st_unfold. simpl. unfold set_mInputSockets, record_events. simpl.
    by rewrite (delete_id _ _ Hnone).
Qed.

(** The first [OpenInputChannel] on a port: one bind to the wildcard
    address.  When the system refuses it, the registry is as before and the
    call answers [false].  When the system grants it, the socket is
    registered under the port; if the address is a multicast one the group
    is joined on it, and the call answers [true], unless that join is
    refused: then the exception leaves the call, with the socket
    registered. *)
Lemma OpenInputChannel_fresh t locator :
  IsLocatorSupported locator = true ->
  mInputSockets t !! port locator = None ->
  let o := InputOptions (mReceiveBufferSize t) true true in
  let ep := mkEndpoint address_v6_any (to_uint16 (port locator)) in
  OpenInputChannel locator t =
  match os_open_and_bind os (history t) o ep with
  | Some h =>
    let s := mkSocket h o ep in
    if IsMulticastAddress locator then
      let group := Locator_address_v6 locator in
      let joined := os_join_group os (history t ++ [EvBound s]) s group in
      (if joined then Some true else None,
       set_mInputSockets (insert (port locator) s)
         (record_events [EvBound s; EvJoinGroup s group joined] t))
    else
      (Some true,
       set_mInputSockets (insert (port locator) s) (record_events [EvBound s] t))
  | None => (Some false, record_events [EvBindFailed o ep] t)
  end.
Proof.
  intros Hk Hnone. simpl.
  assert (Hclosed : IsInputChannelOpen t locator = false).
  { unfold IsInputChannelOpen. by rewrite (proj2 (contains_false _ _) Hnone), andb_false_r. }
  unfold OpenInputChannel.
  unfold bind at 1. unfold get at 1. rewrite Hk, Hclosed. simpl.
  unfold bind at 1.
  pose proof (OpenAndBindInputSockets_fresh (port locator) t Hnone) as Heq.
  simpl in Heq. rewrite Heq. clear Heq.
  destruct (os_open_and_bind os (history t) _ _) as [h|].
  - unfold bind at 1, get at 1.
    unfold IsInputChannelOpen, contains. simpl.
    rewrite Hk, lookup_insert_eq. simpl.
    destruct (IsMulticastAddress locator); simpl; [|done].
    st_unfold. simpl.
    destruct (os_join_group os (history t ++ [EvBound _]) _ _); simpl;
      unfold set_mInputSockets, record_events, record_event; simpl;
      by rewrite <- app_assoc.
  - unfold bind at 1, get at 1.
    unfold IsInputChannelOpen, contains. simpl.
    by rewrite Hnone, !andb_false_r.
Qed.

(** Shared mode without a white list: one socket on the wildcard address. *)
Lemma OpenOutputChannel_fresh_shared t locator :
  IsLocatorSupported locator = true ->
  mGranularMode t = false ->
  mInterfaceWhiteList t = [] ->
  mOutputSockets t !! port locator = None ->
  let o := OutputOptions (mSendBufferSize t) in
  let ep := mkEndpoint address_v6_any (to_uint16 (port locator)) in
  OpenOutputChannel locator t =
  match os_open_and_bind os (history t) o ep with
  | Some h =>
    let s := mkSocket h o ep in
    (true, set_mOutputSockets (insert (port locator) [s])
             (record_events [EvBound s] t))
  | None => (false, record_events [EvBindFailed o ep] t)
  end.
Proof.
  intros Hk Hg Hw Hnone. simpl.
  assert (Hclosed : IsOutputChannelOpen t locator = false).
  { unfold IsOutputChannelOpen. by rewrite Hk, Hg, (proj2 (contains_false _ _) Hnone). }
  unfold OpenOutputChannel, OpenAndBindOutputSockets, OpenAndBindUnicastOutputSocket.
  unfold bind at 1. unfold get at 1. rewrite Hk, Hclosed, Hg. simpl.
  unfold try_catch. unfold bind at 1. unfold bind at 1. unfold get at 1.
  rewrite Hw. unfold try_bind. unfold bind at 1. unfold bind at 1. unfold get at 1.
  rewrite open_and_bind_eq.
  destruct (os_open_and_bind os (history t) _ _) as [h|]; st_unfold; simpl.
  - unfold set_mOutputSockets, push_back_at. simpl. by rewrite Hnone.
  - rewrite Hnone. simpl.
    unfold set_mOutputSockets, record_events, record_event. simpl.
    by rewrite (delete_id _ _ Hnone).
Qed.

(** Granular mode: one socket on the address of the locator, if the
    interface filter lets the address through. *)
Lemma OpenOutputChannel_fresh_granular t locator :
  IsLocatorSupported locator = true ->
  mGranularMode t = true ->
  mGranularOutputSockets t !! locator = None ->
  let o := OutputOptions (mSendBufferSize t) in
  let ep := mkEndpoint (Locator_address_v6 locator) (to_uint16 (port locator)) in
  OpenOutputChannel locator t =
  if IsInterfaceAllowed t (Locator_address_v6 locator) then
    match os_open_and_bind os (history t) o ep with
    | Some h =>
      let s := mkSocket h o ep in
      (true, set_mGranularOutputSockets (insert locator s)
               (record_events [EvBound s] t))
    | None => (false, record_events [EvBindFailed o ep] t)
    end
  else (false, t).
Proof.
  intros Hk Hg Hnone. simpl.
  assert (Hclosed : IsOutputChannelOpen t locator = false).
  { unfold IsOutputChannelOpen. by rewrite Hk, Hg, (proj2 (contains_false _ _) Hnone). }
  unfold OpenOutputChannel, OpenAndBindGranularOutputSocket,
    OpenAndBindUnicastOutputSocket.
  unfold bind at 1. unfold get at 1. rewrite Hk, Hclosed, Hg. simpl.
  unfold bind at 1. unfold get at 1.
  destruct (IsInterfaceAllowed t (Locator_address_v6 locator)); simpl; [|done].
  unfold try_catch, try_bind.
  unfold bind at 1. unfold bind at 1. unfold bind at 1. unfold get at 1.
  rewrite open_and_bind_eq.
  destruct (os_open_and_bind os (history t) _ _) as [h|]; st_unfold; simpl.
  - unfold contains. rewrite Hnone. simpl.
    unfold set_mGranularOutputSockets, insert_if_absent. simpl. by rewrite Hnone.
  - rewrite Hnone. simpl.
    unfold set_mGranularOutputSockets, record_events, record_event. simpl.
    by rewrite (delete_id _ _ Hnone).
Qed.

(** *** Closing a channel *)

Lemma cancel_and_close_eq sockets :
  forall t, cancel_and_close sockets t = (tt, record_events (close_events sockets) t).
Proof.
  induction sockets as [|s rest IH]; intros t; simpl.
  - unfold ret. by rewrite record_events_nil.
  - st_unfold. rewrite IH. by rewrite !record_event_events, !record_events_app.
Qed.

Lemma CloseOutputChannel_open t locator sockets :
  IsLocatorSupported locator = true ->
  output_channel t locator = Some sockets ->
  CloseOutputChannel locator t = (true, output_channel_erased locator sockets t).
Proof.
  intros Hk Hch.
  assert (Hopen : IsOutputChannelOpen t locator = true)
    by (apply IsOutputChannelOpen_true; eauto).
  unfold CloseOutputChannel, output_channel_erased. st_unfold.
  rewrite Hopen. simpl. unfold output_channel in Hch.
  destruct (mGranularMode t).
  - destruct (mGranularOutputSockets t !! locator) as [s|]; [|done].
    simpl in Hch. injection Hch as <-. simpl.
    by rewrite !record_event_events, !record_events_app.
  - rewrite Hch, cancel_and_close_eq. done.
Qed.

Lemma CloseInputChannel_open t locator s :
  IsLocatorSupported locator = true ->
  mInputSockets t !! port locator = Some s ->
  CloseInputChannel locator t =
  (true, set_mInputSockets (delete (port locator))
           (record_events [EvCancel s; EvClose s] t)).
Proof.
  intros Hk Hs.
  assert (Hopen : IsInputChannelOpen t locator = true)
    by (apply IsInputChannelOpen_true; eauto).
  unfold CloseInputChannel. st_unfold. rewrite Hopen, Hs. simpl.
  by rewrite !record_event_events, !record_events_app.
Qed.

Lemma output_channel_erased_lookup t locator sockets other :
  output_channel (output_channel_erased locator sockets t) other =
  if mGranularMode t
  then (if decide (locator = other) then None else output_channel t other)
  else (if decide (port locator = port other) then None else output_channel t other).
Proof.
  unfold output_channel_erased, output_channel.
  destruct (mGranularMode t) eqn:Hg; simpl; rewrite Hg.
  - rewrite lookup_delete. by destruct (decide (locator = other)).
  - rewrite lookup_delete. by destruct (decide (port locator = port other)).
Qed.

(** C6. Closing fails, with the object as it was, when the channel of the
    locator is not open.  When it is open, every socket registered under the
    key is cancelled and closed, in that order and nothing else, the entry is
    erased, the call reports success, and the matching query answers
    [false] on the object returned; entries under other keys and the other
    direction's registry stay as they were. *)
Theorem closing_erases_the_channel (locator : Locator_t) (t : UDPv6Transport) :
  (IsOutputChannelOpen t locator = false ->
   CloseOutputChannel locator t = (false, t)) /\
  (IsInputChannelOpen t locator = false ->
   CloseInputChannel locator t = (false, t)) /\
  (IsOutputChannelOpen t locator = true ->
   exists sockets t',
     output_channel t locator = Some sockets /\
     CloseOutputChannel locator t = (true, t') /\
     history t' = history t ++ close_events sockets /\
     output_channel t' locator = None /\
     IsOutputChannelOpen t' locator = false /\
     mInputSockets t' = mInputSockets t /\
     (forall other,
        (if mGranularMode t then locator <> other else port locator <> port other) ->
        output_channel t' other = output_channel t other)) /\
  (IsInputChannelOpen t locator = true ->
   exists s t',
     mInputSockets t !! port locator = Some s /\
     CloseInputChannel locator t = (true, t') /\
     history t' = history t ++ [EvCancel s; EvClose s] /\
     mInputSockets t' = delete (port locator) (mInputSockets t) /\
     IsInputChannelOpen t' locator = false /\
     mOutputSockets t' = mOutputSockets t /\
     mGranularOutputSockets t' = mGranularOutputSockets t).
Proof.
  split; [apply CloseOutputChannel_not_open|].
  split; [apply CloseInputChannel_not_open|].
  split.
  - intros [Hk [sockets Hch]]%IsOutputChannelOpen_true.
    exists sockets, (output_channel_erased locator sockets t).
    assert (Hgone : output_channel (output_channel_erased locator sockets t) locator = None).
    { rewrite output_channel_erased_lookup.
      destruct (mGranularMode t); by rewrite decide_True. }
    split; [done|]. split; [by apply CloseOutputChannel_open|].
    split; [unfold output_channel_erased; by destruct (mGranularMode t)|].
    split; [done|]. split; [|split].
    + destruct (IsOutputChannelOpen (output_channel_erased locator sockets t) locator)
        eqn:Hopen; [|done].
      apply IsOutputChannelOpen_true in Hopen as [_ [x Hx]]. congruence.
    + unfold output_channel_erased; by destruct (mGranularMode t).
    + intros other Hne. rewrite output_channel_erased_lookup.
      destruct (mGranularMode t); by rewrite decide_False.
  - intros [Hk [s Hs]]%IsInputChannelOpen_true.
    exists s, (set_mInputSockets (delete (port locator))
                 (record_events [EvCancel s; EvClose s] t)).
    split; [done|]. split; [by apply CloseInputChannel_open|].
    repeat split; try done.
    unfold IsInputChannelOpen. simpl. by rewrite contains_delete, andb_false_r.
Qed.


(** *** A white list that admits no interface *)

Lemma IsInterfaceAllowed_false t ip :
  IsInterfaceAllowed t ip = false <->
  mInterfaceWhiteList t <> [] /\ ip <> address_v6_any /\ ip ∉ mInterfaceWhiteList t.
Proof.
  unfold IsInterfaceAllowed.
  destruct (mInterfaceWhiteList t) as [|w ws] eqn:Hw.
  - split; [done | by intros [? _]].
  - destruct (bool_decide_reflect (ip = address_v6_any)) as [->|Hany].
    + split; [done | by intros (_ & ? & _)].
    + rewrite bool_decide_eq_false. split; [done | by intros (_ & _ & ?)].
Qed.

Lemma bind_allowed_interfaces_none port locNames t :
  Forall (fun infoIP => exists ip,
            address_v6_from_string os (name infoIP) = Some ip /\
            IsInterfaceAllowed t ip = false) locNames ->
  bind_allowed_interfaces port locNames t = (Some tt, t).
Proof.
  induction 1 as [|infoIP rest (ip & Hparse & Hno) _ IH]; simpl; [done|].
  unfold from_string. st_unfold. by rewrite Hparse, Hno.
Qed.

(** C10. Shared mode, a white list that is not empty, and an interface
    filter that admits none of the local IPv6 interface addresses:
    [OpenOutputChannel] on a supported locator that is not open yet reports
    success and returns the object as it was but for the record of the
    enumeration it made, without an entry for the locator, so
    [IsOutputChannelOpen] still answers [false] and [Send] through the
    locator fails without a write. *)
Theorem open_with_no_allowed_interface_registers_nothing
    (loc : Locator_t) (t : UDPv6Transport) :
  mGranularMode t = false ->
  mInterfaceWhiteList t <> [] ->
  (forall infoIP, infoIP ∈ GetIP6s (history t) ->
     exists ip, address_v6_from_string os (name infoIP) = Some ip /\
                IsInterfaceAllowed t ip = false) ->
  kind loc = LOCATOR_KIND_UDPv6 ->
  IsOutputChannelOpen t loc = false ->
  exists t',
    OpenOutputChannel loc t = (true, t') /\
    t' = record_events [EvGetIPs] t /\
    output_channel t' loc = None /\
    IsOutputChannelOpen t' loc = false /\
    forall sendBuffer sendBufferSize remoteLocator,
      Send sendBuffer sendBufferSize loc remoteLocator t' = (false, t').
Proof.
  intros Hg Hw Hifs Hk%IsLocatorSupported_true Hclosed.
  exists (record_events [EvGetIPs] t).
  split; [|split; [done|split; [|split; [done|]]]].
  - unfold OpenOutputChannel. st_unfold. rewrite Hclosed, Hk, Hg. simpl.
    unfold OpenAndBindOutputSockets. st_unfold.
    destruct (mInterfaceWhiteList t) as [|w ws] eqn:Hwl; [done|].
    change (record_event EvGetIPs t) with (record_events [EvGetIPs] t).
    rewrite bind_allowed_interfaces_none; [done|].
    apply Forall_forall. intros infoIP Hin. by apply Hifs.
  - change (output_channel t loc = None).
    destruct (output_channel t loc) as [sockets|] eqn:Hch; [|done].
    assert (IsOutputChannelOpen t loc = true)
      by (apply IsOutputChannelOpen_true; eauto).
    congruence.
  - intros sendBuffer sendBufferSize remoteLocator.
    unfold Send. st_unfold.
    change (IsOutputChannelOpen (record_events [EvGetIPs] t) loc)
      with (IsOutputChannelOpen t loc).
    by rewrite Hclosed.
Qed.

(** *** Mapping a remote locator to the main local one *)

Lemma RemoteToMainLocal_supported remote :
  IsLocatorSupported remote = true -> RemoteToMainLocal remote = remote.
Proof. intros Hk. unfold RemoteToMainLocal. by rewrite Hk. Qed.

Lemma RemoteToMainLocal_foreign remote :
  IsLocatorSupported remote = false ->
  RemoteToMainLocal remote = Locator_t_of_uint32 0.
Proof. intros Hk. unfold RemoteToMainLocal. by rewrite Hk. Qed.

(** C8, as the code has it. For a supported remote locator
    [RemoteToMainLocal] returns the remote locator itself: the copy whose
    address it clears is dropped.  The address of the result is therefore
    the address of the remote, which is all zero only if the remote's was. *)
Theorem RemoteToMainLocal_returns_the_remote (remote : Locator_t) :
  kind remote = LOCATOR_KIND_UDPv6 ->
  RemoteToMainLocal remote = remote /\
  (address remote <> zero_octets ->
   RemoteToMainLocal remote <>
   mkLocator (kind remote) (port remote) zero_octets).
Proof.
  intros Hk%IsLocatorSupported_true.
  rewrite (RemoteToMainLocal_supported remote Hk). split; [done|].
  intros Hne Heq. apply Hne. by rewrite Heq.
Qed.

(** *** Matching and receiving *)

Lemma DoLocatorsMatch_true t left right :
  DoLocatorsMatch t left right = true <->
  if mGranularMode t then left = right else port left = port right.
Proof.
  unfold DoLocatorsMatch. destruct (mGranularMode t).
  - apply bool_decide_eq_true.
  - apply Z.eqb_eq.
Qed.

Lemma DoLocatorsMatch_refl t loc : DoLocatorsMatch t loc loc = true.
Proof. apply DoLocatorsMatch_true. by destruct (mGranularMode t). Qed.

Lemma Receive_not_open t capacity size localLocator remoteLocator :
  IsInputChannelOpen t localLocator = false ->
  Receive capacity size localLocator remoteLocator t = (false, size, remoteLocator, t).
Proof. intros Ho. unfold Receive. st_unfold. by rewrite Ho. Qed.

Lemma Send_not_open t sendBuffer sendBufferSize localLocator remoteLocator :
  IsOutputChannelOpen t localLocator = false ->
  Send sendBuffer sendBufferSize localLocator remoteLocator t = (false, t).
Proof. intros Ho. unfold Send. st_unfold. by rewrite Ho. Qed.


(** *** Locator normalisation *)

Lemma is_any_address_true a : is_any_address a = true <-> a = zero_octets.
Proof.
  destruct a. unfold is_any_address, zero_octets. simpl.
  rewrite !andb_true_iff, !Z.eqb_eq. split.
  - intros H. repeat match goal with H : _ /\ _ |- _ => destruct H end.
    by subst.
  - intros H. injection H as -> -> -> -> -> -> -> -> -> -> -> -> -> -> -> ->.
    repeat split.
Qed.

Lemma is_any_address_false a : is_any_address a = false <-> a <> zero_octets.
Proof.
  rewrite <- is_any_address_true. by destruct (is_any_address a).
Qed.

(** [GetIP6s] keeps the entries tagged [IP6] and no other. *)
Lemma GetIP6s_elem (h : list event) (infoIP : info_IP) :
  infoIP ∈ GetIP6s h <-> infoIP ∈ IPFinder_getIPs os h /\ ip_type infoIP = IP6.
Proof. unfold GetIP6s. rewrite list_elem_of_filter. by split; intros [? ?]. Qed.

Section Normalisation.

Set Default Proof Using "Type*".

(** All that is assumed of [LocatorList_t::push_back]: it appends the
    locator, unless the locator is in the list already and it leaves the list
    alone.  A plain append and an append that skips duplicates both
    qualify. *)
Hypothesis push_back_appends_or_skips :
  forall (l : list Locator_t) (x : Locator_t),
    LocatorList_push_back l x = l ++ [x] \/
    (x ∈ l /\ LocatorList_push_back l x = l).

Lemma push_back_empty x : LocatorList_push_back [] x = [x].
Proof.
  destruct (push_back_appends_or_skips [] x) as [->|[Hin _]]; [done|].
  by apply elem_of_nil in Hin.
Qed.

Lemma push_back_elem l x y :
  y ∈ LocatorList_push_back l x <-> y ∈ l \/ y = x.
Proof.
  destruct (push_back_appends_or_skips l x) as [->|[Hin ->]].
  - rewrite elem_of_app, list_elem_of_singleton. done.
  - split; [by left | by intros [?| ->]].
Qed.

Lemma push_back_length l x :
  (length (LocatorList_push_back l x) <= S (length l))%nat.
Proof.
  destruct (push_back_appends_or_skips l x) as [->|[_ ->]].
  - rewrite length_app. simpl. lia.
  - lia.
Qed.

Lemma expand_over_interfaces_elem loc locNames :
  forall acc x,
  x ∈ expand_over_interfaces loc locNames acc <->
  x ∈ acc \/
  exists infoIP, infoIP ∈ locNames /\
    x = mkLocator (kind loc) (port loc) (address (locator infoIP)).
Proof.
  induction locNames as [|infoIP rest IH]; intros acc x; simpl.
  - split; [by left|]. intros [?|(? & Hin & _)]; [done|].
    by apply elem_of_nil in Hin.
  - rewrite IH, push_back_elem. split.
    + intros [[?| ->]|(i & Hin & ->)].
      * by left.
      * right. exists infoIP. split; [apply list_elem_of_here|done].
      * right. exists i. split; [by apply list_elem_of_further|done].
    + intros [?|(i & Hin & ->)]; [by left; left|].
      apply elem_of_cons in Hin as [->|Hin].
      * left. by right.
      * right. by exists i.
Qed.

Lemma expand_over_interfaces_length loc locNames :
  forall acc,
  (length (expand_over_interfaces loc locNames acc)
   <= length acc + length locNames)%nat.
Proof.
  induction locNames as [|infoIP rest IH]; intros acc; simpl; [lia|].
  etrans; [apply IH|]. pose proof (push_back_length acc
    (mkLocator (kind loc) (port loc) (address (locator infoIP)))). lia.
Qed.

Lemma expand_over_interfaces_order loc locNames :
  forall acc, exists added,
    expand_over_interfaces loc locNames acc = acc ++ added /\
    added `sublist_of`
      map (fun infoIP => mkLocator (kind loc) (port loc) (address (locator infoIP)))
          locNames.
Proof.
  induction locNames as [|infoIP rest IH]; intros acc; simpl.
  - exists []. by rewrite app_nil_r.
  - set (x := mkLocator (kind loc) (port loc) (address (locator infoIP))).
    destruct (push_back_appends_or_skips acc x) as [->|[_ ->]].
    + destruct (IH (acc ++ [x])) as (added & -> & Hsub).
      exists (x :: added). split; [by rewrite <- app_assoc|].
      by apply sublist_skip.
    + destruct (IH acc) as (added & -> & Hsub).
      exists added. split; [done|]. by apply sublist_cons.
Qed.

(** C3. For a locator whose sixteen address bytes are zero,
    [NormalizeLocator] returns the locators of the local IPv6 interfaces,
    that is of the entries that [IPFinder::getIPs] tags [IP6]: the address of
    every such entry is there with the kind and the port of the input, every
    locator returned is one of these, there are no more locators than such
    entries, and they come in the order of the enumeration.  For a locator
    with a non-zero address byte it returns the list holding just the
    input. *)
Theorem NormalizeLocator_expands_the_wildcard
    (t : UDPv6Transport) (loc : Locator_t) :
  (address loc = zero_octets ->
   (forall infoIP,
      infoIP ∈ IPFinder_getIPs os (history t) -> ip_type infoIP = IP6 ->
      mkLocator (kind loc) (port loc) (address (locator infoIP))
        ∈ NormalizeLocator t loc) /\
   (forall x, x ∈ NormalizeLocator t loc ->
      kind x = kind loc /\ port x = port loc /\
      exists infoIP, infoIP ∈ IPFinder_getIPs os (history t) /\
                     ip_type infoIP = IP6 /\
                     address x = address (locator infoIP)) /\
   (length (NormalizeLocator t loc)
    <= length (filter (fun infoIP => ip_type infoIP = IP6)
                      (IPFinder_getIPs os (history t))))%nat /\
   NormalizeLocator t loc `sublist_of`
     map (fun infoIP => mkLocator (kind loc) (port loc) (address (locator infoIP)))
         (filter (fun infoIP => ip_type infoIP = IP6)
                 (IPFinder_getIPs os (history t)))) /\
  (address loc <> zero_octets -> NormalizeLocator t loc = [loc]).
Proof.
  unfold NormalizeLocator. split.
  - intros Hz%is_any_address_true. rewrite Hz. split; [|split; [|split]].
    4:{ destruct (expand_over_interfaces_order loc (GetIP6s (history t)) [])
          as (added & -> & Hsub). exact Hsub. }
    + intros infoIP Hin Htag. apply expand_over_interfaces_elem. right.
      exists infoIP. split; [|done]. by apply GetIP6s_elem.
    + intros x [Hx|(infoIP & Hin & ->)]%expand_over_interfaces_elem.
      * by apply elem_of_nil in Hx.
      * apply GetIP6s_elem in Hin as [Hin Htag].
        simpl. repeat split. by exists infoIP.
    + apply (expand_over_interfaces_length loc _ []).
  - intros Hnz%is_any_address_false. rewrite Hnz. apply push_back_empty.
Qed.

(** C9, as the code has it. The channel operations, [Send] and [Receive]
    (for the local locator) and [RemoteToMainLocal] test the kind and fail
    closed on a foreign one.  [DoLocatorsMatch] and [NormalizeLocator] do not
    look at the kind: a foreign-kind locator matches itself, it matches
    another locator exactly when the two are equal (granular mode) or have
    the same port (shared mode), and it is normalised like any other
    locator. *)
Theorem kind_is_tested_by_channel_and_transfer_operations
    (t : UDPv6Transport) (loc : Locator_t) :
  kind loc <> LOCATOR_KIND_UDPv6 ->
  (OpenOutputChannel loc t = (false, t) /\
   OpenInputChannel loc t = (Some false, t) /\
   CloseOutputChannel loc t = (false, t) /\
   CloseInputChannel loc t = (false, t) /\
   IsOutputChannelOpen t loc = false /\
   IsInputChannelOpen t loc = false) /\
  (forall sendBuffer sendBufferSize remoteLocator,
     Send sendBuffer sendBufferSize loc remoteLocator t = (false, t)) /\
  (forall capacity size remoteLocator,
     Receive capacity size loc remoteLocator t = (false, size, remoteLocator, t)) /\
  RemoteToMainLocal loc = Locator_t_of_uint32 0 /\
  DoLocatorsMatch t loc loc = true /\
  (forall other,
     DoLocatorsMatch t loc other = true <->
     if mGranularMode t then loc = other else port loc = port other) /\
  (address loc <> zero_octets -> NormalizeLocator t loc = [loc]) /\
  (address loc = zero_octets ->
   forall infoIP, infoIP ∈ GetIP6s (history t) ->
     mkLocator (kind loc) (port loc) (address (locator infoIP))
       ∈ NormalizeLocator t loc).
Proof.
  intros Hk%IsLocatorSupported_false.
  split; [|split; [|split; [|split; [|split; [|split; [|split]]]]]].
  - repeat split.
    + by apply OpenOutputChannel_foreign.
    + by apply OpenInputChannel_foreign.
    + by apply CloseOutputChannel_not_open, IsOutputChannelOpen_foreign.
    + by apply CloseInputChannel_not_open, IsInputChannelOpen_foreign.
    + by apply IsOutputChannelOpen_foreign.
    + by apply IsInputChannelOpen_foreign.
  - intros. by apply Send_not_open, IsOutputChannelOpen_foreign.
  - intros. by apply Receive_not_open, IsInputChannelOpen_foreign.
  - by apply RemoteToMainLocal_foreign.
  - apply DoLocatorsMatch_refl.
  - intros other. apply DoLocatorsMatch_true.
  - intros Hnz%is_any_address_false. unfold NormalizeLocator.
    rewrite Hnz. apply push_back_empty.
  - intros Hz%is_any_address_true infoIP Hin. unfold NormalizeLocator.
    rewrite Hz. apply expand_over_interfaces_elem. right. by exists infoIP.
Qed.


End Normalisation.

(** With a [push_back] that always appends, the expansion is the list of the
    interface locators in the order of the enumeration. *)
Lemma NormalizeLocator_wildcard_append (t : UDPv6Transport) (loc : Locator_t) :
  (forall l x, LocatorList_push_back l x = l ++ [x]) ->
  address loc = zero_octets ->
  NormalizeLocator t loc =
  map (fun infoIP => mkLocator (kind loc) (port loc) (address (locator infoIP)))
      (GetIP6s (history t)).
Proof.
  intros Happ Hz%is_any_address_true. unfold NormalizeLocator. rewrite Hz.
  generalize (GetIP6s (history t)). intros locNames.
  change (expand_over_interfaces loc locNames [] =
          [] ++ map (fun infoIP =>
                       mkLocator (kind loc) (port loc) (address (locator infoIP)))
                    locNames).
  generalize (@nil Locator_t) as acc.
  induction locNames as [|infoIP rest IH]; intros acc; simpl.
  - by rewrite app_nil_r.
  - rewrite IH, Happ, <- app_assoc. done.
Qed.


(** *** What opening an output channel does to the object *)

Lemma set_mOutputSockets_nothing t :
  set_mOutputSockets (fun m => m) (record_events [] t) = t.
Proof.
  destruct t. unfold set_mOutputSockets, record_events. simpl.
  by rewrite app_nil_r.
Qed.

Lemma set_mOutputSockets_twice f g evs1 evs2 t :
  set_mOutputSockets f (record_events evs2 (set_mOutputSockets g (record_events evs1 t)))
  = set_mOutputSockets (fun m => f (g m)) (record_events (evs1 ++ evs2) t).
Proof.
  unfold set_mOutputSockets, record_events. simpl. by rewrite app_assoc.
Qed.

Lemma IsInterfaceAllowed_white_list t t' ip :
  mInterfaceWhiteList t' = mInterfaceWhiteList t ->
  IsInterfaceAllowed t' ip = IsInterfaceAllowed t ip.
Proof. intros Hw. unfold IsInterfaceAllowed. by rewrite Hw. Qed.

Lemma bound_for_output_configuration t t' port s :
  same_configuration t t' -> bound_for_output t' port s <-> bound_for_output t port s.
Proof.
  intros (_ & Hs & _ & _ & Hw). unfold bound_for_output.
  by rewrite Hs, (IsInterfaceAllowed_white_list t t' _ Hw).
Qed.

Lemma allowed_bind_request_configuration t t' port e :
  same_configuration t t' ->
  allowed_bind_request t' port e <-> allowed_bind_request t port e.
Proof.
  intros Hc. destruct e; simpl; try done.
  - by apply bound_for_output_configuration.
  - destruct Hc as (_ & Hs & _ & _ & Hw).
    by rewrite Hs, (IsInterfaceAllowed_white_list t t' _ Hw).
Qed.

Lemma allowed_addresses_white_list t t' locNames :
  mInterfaceWhiteList t' = mInterfaceWhiteList t ->
  allowed_addresses t' locNames = allowed_addresses t locNames.
Proof.
  intros Hw. unfold allowed_addresses.
  apply list_filter_iff. intros ip.
  by rewrite (IsInterfaceAllowed_white_list t t' ip Hw).
Qed.

Lemma same_configuration_outputs f evs t :
  same_configuration t (set_mOutputSockets f (record_events evs t)).
Proof. by repeat split. Qed.

Lemma add_sockets_push_back port s socks (m : gmap Z (list socket)) :
  add_sockets port socks (push_back_at port s m) = add_sockets port (s :: socks) m.
Proof.
  unfold add_sockets, push_back_at. destruct socks as [|s' socks]; [done|].
  rewrite lookup_insert_eq, insert_insert_eq. simpl. by rewrite <- app_assoc.
Qed.

Lemma delete_add_sockets port socks (m : gmap Z (list socket)) :
  delete port (add_sockets port socks m) = delete port m.
Proof.
  unfold add_sockets. destruct socks; [done|]. by rewrite delete_insert_eq.
Qed.

Lemma bind_allowed_interfaces_cons port infoIP rest t :
  bind_allowed_interfaces port (infoIP :: rest) t =
  match address_v6_from_string os (name infoIP) with
  | None => (None, t)
  | Some ip =>
    if IsInterfaceAllowed t ip then
      let o := OutputOptions (mSendBufferSize t) in
      let ep := mkEndpoint ip (to_uint16 port) in
      match os_open_and_bind os (history t) o ep with
      | Some h =>
        bind_allowed_interfaces port rest
          (set_mOutputSockets (push_back_at port (mkSocket h o ep))
             (record_events [EvBound (mkSocket h o ep)] t))
      | None => (None, record_events [EvBindFailed o ep] t)
      end
    else bind_allowed_interfaces port rest t
  end.
Proof.
  simpl. unfold from_string, OpenAndBindUnicastOutputSocket, open_and_bind.
  st_unfold.
  destruct (address_v6_from_string os (name infoIP)) as [ip|]; [|done].
  destruct (IsInterfaceAllowed t ip); [|done].
  by destruct (os_open_and_bind os (history t) _ _).
Qed.

(** The loop over the interfaces: it binds on addresses the filter lets
    through and on no other, appends the sockets it obtained to the entry of
    the port, and stops at the first name that does not parse or bind that
    fails. *)
Lemma bind_allowed_interfaces_effect port locNames :
  forall t, exists evs socks,
    snd (bind_allowed_interfaces port locNames t)
      = set_mOutputSockets (add_sockets port socks) (record_events evs t) /\
    Forall (bound_for_output t port) socks /\
    Forall (allowed_bind_request t port) evs /\
    bound_sockets evs = socks /\
    (fst (bind_allowed_interfaces port locNames t) = Some tt ->
     map (fun s => ep_address (local_endpoint s)) socks
       = allowed_addresses t locNames).
Proof.
  induction locNames as [|infoIP rest IH]; intros t.
  - exists [], []. simpl. split; [by rewrite set_mOutputSockets_nothing|].
    by repeat split.
  - rewrite bind_allowed_interfaces_cons.
    unfold allowed_addresses. simpl. fold (allowed_addresses t rest).
    destruct (address_v6_from_string os (name infoIP)) as [ip|] eqn:Hparse.
    2:{ exists [], []. simpl. split; [by rewrite set_mOutputSockets_nothing|].
        by repeat split. }
    destruct (IsInterfaceAllowed t ip) eqn:Hallowed.
    2:{ destruct (IH t) as (evs & socks & Hsnd & Hs & He & Hb & Hok).
        exists evs, socks. repeat split; try done.
        intros Hr. rewrite (Hok Hr). rewrite filter_cons_False; [done|].
        by rewrite Hallowed. }
    destruct (os_open_and_bind os (history t) _ _) as [h|] eqn:Hbind.
    2:{ exists [EvBindFailed (OutputOptions (mSendBufferSize t))
                  (mkEndpoint ip (to_uint16 port))], [].
        simpl. split; [|repeat split; try done].
        - unfold set_mOutputSockets, record_events. by simpl.
        - constructor; [|done]. by repeat split. }
    set (s := mkSocket h (OutputOptions (mSendBufferSize t))
                (mkEndpoint ip (to_uint16 port))).
    set (t1 := set_mOutputSockets (push_back_at port s)
                 (record_events [EvBound s] t)).
    assert (Hc : same_configuration t t1) by apply same_configuration_outputs.
    assert (Hbs : bound_for_output t port s) by by repeat split.
    destruct (IH t1) as (evs & socks & Hsnd & Hs & He & Hb & Hok).
    exists (EvBound s :: evs), (s :: socks).
    split; [|split; [|split; [|split]]].
    + rewrite Hsnd. unfold t1. rewrite set_mOutputSockets_twice.
      unfold set_mOutputSockets. simpl. by rewrite add_sockets_push_back.
    + constructor; [done|].
      eapply Forall_impl; [exact Hs|]. intros x.
      by apply bound_for_output_configuration.
    + constructor; [done|].
      eapply Forall_impl; [exact He|]. intros x.
      by apply allowed_bind_request_configuration.
    + by rewrite <- Hb.
    + intros Hr. simpl. rewrite (Hok Hr).
      rewrite filter_cons_True by done.
      by f_equal.
Qed.

Lemma OpenAndBindOutputSockets_white_list port t :
  mInterfaceWhiteList t <> [] ->
  OpenAndBindOutputSockets port t =
  match bind_allowed_interfaces port (GetIP6s (history t))
          (record_events [EvGetIPs] t) with
  | (Some _, t') => (true, t')
  | (None, t') =>
    (false,
     set_mOutputSockets (delete port)
       (record_events (map EvDestroy (default [] (mOutputSockets t' !! port))) t'))
  end.
Proof.
  intros Hw. unfold OpenAndBindOutputSockets. st_unfold.
  destruct (mInterfaceWhiteList t) as [|w ws]; [done|].
  change (record_event EvGetIPs t) with (record_events [EvGetIPs] t).
  destruct (bind_allowed_interfaces port (GetIP6s (history t))
              (record_events [EvGetIPs] t)) as [[[]|] t']; [done|].
  by rewrite destroy_sockets_eq.
Qed.

Lemma IsOutputChannelOpen_false_shared t locator :
  IsLocatorSupported locator = true ->
  mGranularMode t = false ->
  IsOutputChannelOpen t locator = false ->
  mOutputSockets t !! port locator = None.
Proof.
  intros Hk Hg. unfold IsOutputChannelOpen. rewrite Hk, Hg. simpl.
  apply contains_false.
Qed.

Lemma IsOutputChannelOpen_false_granular t locator :
  IsLocatorSupported locator = true ->
  mGranularMode t = true ->
  IsOutputChannelOpen t locator = false ->
  mGranularOutputSockets t !! locator = None.
Proof.
  intros Hk Hg. unfold IsOutputChannelOpen. rewrite Hk, Hg. simpl.
  apply contains_false.
Qed.

Lemma lookup_add_sockets_fresh port socks (m : gmap Z (list socket)) :
  m !! port = None ->
  default [] (add_sockets port socks m !! port) = socks.
Proof.
  intros Hnone. unfold add_sockets. destruct socks as [|s socks].
  - by rewrite Hnone.
  - by rewrite lookup_insert_eq, Hnone.
Qed.

(** The handler of [OpenAndBindOutputSockets] on a port that had no entry:
    the sockets bound so far are destroyed and the registry is as it was. *)
Lemma erase_after_add_sockets port socks evs t :
  mOutputSockets t !! port = None ->
  let t' := set_mOutputSockets (add_sockets port socks) (record_events evs t) in
  set_mOutputSockets (delete port)
    (record_events (map EvDestroy (default [] (mOutputSockets t' !! port))) t')
  = record_events (evs ++ map EvDestroy socks) t.
Proof.
  intros Hnone. simpl. rewrite (lookup_add_sockets_fresh _ _ _ Hnone).
  unfold set_mOutputSockets, record_events. simpl.
  by rewrite delete_add_sockets, (delete_id _ _ Hnone), app_assoc.
Qed.

(** Every way [OpenOutputChannel] can go.  It answers [false] and only the
    history grows; or, in shared mode, it answers [true] and the sockets it
    bound are appended to the entry of the port; or, in granular mode, it
    answers [true] and the one socket it bound is entered under the
    locator.  What it asks of the system is, in this order: the enumeration
    of the interfaces, if it gets that far; binds, each one the interface
    filter lets through; and, when it answers [false], the destruction of
    the sockets it has bound. *)
Lemma OpenOutputChannel_cases locator t :
  exists evs,
    (exists binds,
       Forall (allowed_bind_request t (port locator)) binds /\
       evs = (if enumerates_interfaces t locator then [EvGetIPs] else [])
             ++ binds
             ++ (if fst (OpenOutputChannel locator t) then []
                 else map EvDestroy (bound_sockets binds))) /\
    (OpenOutputChannel locator t = (false, record_events evs t) \/
     (mGranularMode t = false /\
      IsLocatorSupported locator = true /\
      mOutputSockets t !! port locator = None /\
      exists socks,
        Forall (bound_for_output t (port locator)) socks /\
        OpenOutputChannel locator t =
          (true, set_mOutputSockets (add_sockets (port locator) socks)
                   (record_events evs t)) /\
        match mInterfaceWhiteList t with
        | [] => exists s, socks = [s] /\
                  ep_address (local_endpoint s) = address_v6_any
        | _ => map (fun s => ep_address (local_endpoint s)) socks
               = allowed_addresses t (GetIP6s (history t))
        end) \/
     (mGranularMode t = true /\
      IsLocatorSupported locator = true /\
      mGranularOutputSockets t !! locator = None /\
      exists s,
        bound_for_output t (port locator) s /\
        ep_address (local_endpoint s) = Locator_address_v6 locator /\
        evs = [EvBound s] /\
        OpenOutputChannel locator t =
          (true, set_mGranularOutputSockets (insert locator s)
                   (record_events evs t)))).
Proof.
  destruct (IsLocatorSupported locator) eqn:Hk.
  2:{ assert (Hen : enumerates_interfaces t locator = false).
      { unfold enumerates_interfaces. by rewrite Hk, andb_false_r. }
      exists []. rewrite Hen, record_events_nil, OpenOutputChannel_foreign by done.
      split; [by exists [] | by left]. }
  destruct (IsOutputChannelOpen t locator) eqn:Hopen.
  { assert (Hen : enumerates_interfaces t locator = false).
    { unfold enumerates_interfaces. by rewrite Hopen. }
    exists []. rewrite Hen, record_events_nil.
    rewrite OpenOutputChannel_open
      by by apply IsOutputChannelOpen_true in Hopen as [_ ?].
    split; [by exists [] | by left]. }
  destruct (mGranularMode t) eqn:Hg.
  - assert (Hen : enumerates_interfaces t locator = false).
    { unfold enumerates_interfaces. by rewrite Hopen, Hk, Hg. }
    rewrite Hen.
    pose proof (IsOutputChannelOpen_false_granular t locator Hk Hg Hopen) as Hnone.
    pose proof (OpenOutputChannel_fresh_granular t locator Hk Hg Hnone) as Heq.
    simpl in Heq.
    destruct (IsInterfaceAllowed t (Locator_address_v6 locator)) eqn:Hallowed.
    2:{ exists []. rewrite record_events_nil, Heq.
        split; [by exists [] | by left]. }
    destruct (os_open_and_bind os (history t) _ _) as [h|].
    + set (s := mkSocket h (OutputOptions (mSendBufferSize t))
                  (mkEndpoint (Locator_address_v6 locator)
                              (to_uint16 (port locator)))) in *.
      assert (Hs : bound_for_output t (port locator) s) by by repeat split.
      exists [EvBound s]. rewrite Heq. split.
      { exists [EvBound s]. split; [by constructor | done]. }
      right; right. split; [done|]. split; [done|]. split; [done|].
      exists s. by repeat split.
    + set (e := EvBindFailed (OutputOptions (mSendBufferSize t))
                  (mkEndpoint (Locator_address_v6 locator)
                              (to_uint16 (port locator)))).
      exists [e]. rewrite Heq. split; [|by left].
      exists [e]. split; [|done]. constructor; [|done]. by repeat split.
  - pose proof (IsOutputChannelOpen_false_shared t locator Hk Hg Hopen) as Hnone.
    destruct (mInterfaceWhiteList t) as [|w ws] eqn:Hw.
    + assert (Hen : enumerates_interfaces t locator = false).
      { unfold enumerates_interfaces. by rewrite Hopen, Hk, Hg, Hw. }
      rewrite Hen.
      pose proof (OpenOutputChannel_fresh_shared t locator Hk Hg Hw Hnone) as Heq.
      simpl in Heq.
      assert (Hany : IsInterfaceAllowed t address_v6_any = true)
        by (unfold IsInterfaceAllowed; by rewrite Hw).
      destruct (os_open_and_bind os (history t) _ _) as [h|].
      * set (s := mkSocket h (OutputOptions (mSendBufferSize t))
                    (mkEndpoint address_v6_any (to_uint16 (port locator)))) in *.
        assert (Hs : bound_for_output t (port locator) s) by by repeat split.
        exists [EvBound s]. rewrite Heq. split.
        { exists [EvBound s]. split; [by constructor | done]. }
        right; left. split; [done|]. split; [done|]. split; [done|].
        exists [s]. split; [by constructor|]. split; [|by exists s].
        unfold set_mOutputSockets, add_sockets. simpl.
        by rewrite Hnone.
      * set (e := EvBindFailed (OutputOptions (mSendBufferSize t))
                    (mkEndpoint address_v6_any (to_uint16 (port locator)))).
        exists [e]. rewrite Heq. split; [|by left].
        exists [e]. split; [|done]. constructor; [|done]. by repeat split.
    + assert (Hen : enumerates_interfaces t locator = true).
      { unfold enumerates_interfaces. by rewrite Hopen, Hk, Hg, Hw. }
      rewrite Hen.
      assert (Hne : mInterfaceWhiteList t <> []) by by rewrite Hw.
      assert (Heq : OpenOutputChannel locator t
                    = OpenAndBindOutputSockets (port locator) t).
      { unfold OpenOutputChannel. st_unfold. by rewrite Hopen, Hk, Hg. }
      rewrite Heq, (OpenAndBindOutputSockets_white_list _ _ Hne).
      set (t0 := record_events [EvGetIPs] t).
      assert (Hc : same_configuration t t0) by by repeat split.
      destruct (bind_allowed_interfaces_effect (port locator)
                  (GetIP6s (history t)) t0)
        as (binds & socks & Hsnd & Hs & He & Hb & Hok).
      assert (Hs' : Forall (bound_for_output t (port locator)) socks).
      { eapply Forall_impl; [exact Hs|]. intros x.
        by apply bound_for_output_configuration. }
      assert (He' : Forall (allowed_bind_request t (port locator)) binds).
      { eapply Forall_impl; [exact He|]. intros x.
        by apply (allowed_bind_request_configuration t t0). }
      destruct (bind_allowed_interfaces (port locator) (GetIP6s (history t)) t0)
        as [[[]|] t'] eqn:Hloop; simpl in Hsnd, Hok; subst t'.
      * exists (EvGetIPs :: binds). simpl. split.
        { exists binds. split; [done|]. by rewrite app_nil_r. }
        right; left. repeat split; try done.
        exists socks. split; [done|]. split.
        -- unfold t0. by rewrite record_events_app.
        -- rewrite <- (allowed_addresses_white_list t t0) by done.
           by apply Hok.
      * exists (EvGetIPs :: binds ++ map EvDestroy socks).
        rewrite (erase_after_add_sockets _ _ _ t0) by done. simpl.
        split.
        { exists binds. split; [done|]. by rewrite Hb. }
        left. unfold t0. by rewrite record_events_app.
Qed.


(** Every way [OpenInputChannel] can go.  It registers nothing: then it
    answers [false] and the history is as it was or grows by a refused bind;
    or the channel was open and the address is a multicast one, the history
    grows by a group join on the socket of the port, and the call answers
    [false] if the join is accepted and is left by the exception if it is
    refused.  Or it binds one socket and enters it under the port: then it
    answers [true], unless the address is a multicast one and the join that
    follows is refused, which leaves the call by the exception with the
    socket registered. *)
Lemma OpenInputChannel_cases locator t :
  exists evs outcome,
    (OpenInputChannel locator t = (outcome, record_events evs t) /\
     outcome <> Some true /\
     (evs = [] /\ outcome = Some false \/
      (exists s joined,
         mInputSockets t !! port locator = Some s /\
         IsLocatorSupported locator = true /\
         IsMulticastAddress locator = true /\
         joined = os_join_group os (history t) s (Locator_address_v6 locator) /\
         evs = [EvJoinGroup s (Locator_address_v6 locator) joined] /\
         outcome = if joined then Some false else None) \/
      (mInputSockets t !! port locator = None /\
       outcome = Some false /\
       exists o ep, evs = [EvBindFailed o ep]))) \/
    (IsLocatorSupported locator = true /\
     mInputSockets t !! port locator = None /\
     exists s,
       bound_for_input t (port locator) s /\
       (IsMulticastAddress locator = false /\
        evs = [EvBound s] /\ outcome = Some true \/
        exists joined,
          IsMulticastAddress locator = true /\
          joined = os_join_group os (history t ++ [EvBound s]) s
                     (Locator_address_v6 locator) /\
          evs = [EvBound s; EvJoinGroup s (Locator_address_v6 locator) joined] /\
          outcome = if joined then Some true else None) /\
       OpenInputChannel locator t =
         (outcome,
          set_mInputSockets (insert (port locator) s) (record_events evs t))).
Proof.
  destruct (IsLocatorSupported locator) eqn:Hk.
  2:{ exists [], (Some false). left.
      rewrite record_events_nil, OpenInputChannel_foreign by done.
      split; [done|]. split; [done | by left]. }
  destruct (mInputSockets t !! port locator) as [s|] eqn:Hs.
  - rewrite (OpenInputChannel_open t locator s Hk Hs).
    destruct (IsMulticastAddress locator) eqn:Hm.
    + set (joined := os_join_group os (history t) s (Locator_address_v6 locator)).
      exists [EvJoinGroup s (Locator_address_v6 locator) joined],
             (if joined then Some false else None).
      left. split; [done|]. split; [by destruct joined|].
      right; left. by exists s, joined.
    + exists [], (Some false). left. rewrite record_events_nil.
      split; [done|]. split; [done | by left].
  - pose proof (OpenInputChannel_fresh t locator Hk Hs) as Heq. simpl in Heq.
    rewrite Heq.
    destruct (os_open_and_bind os (history t) _ _) as [h|].
    + set (s := mkSocket h (InputOptions (mReceiveBufferSize t) true true)
                  (mkEndpoint address_v6_any (to_uint16 (port locator)))) in *.
      destruct (IsMulticastAddress locator) eqn:Hm.
      * set (joined := os_join_group os (history t ++ [EvBound s]) s
                         (Locator_address_v6 locator)).
        exists [EvBound s; EvJoinGroup s (Locator_address_v6 locator) joined],
               (if joined then Some true else None).
        right. split; [done|]. split; [done|].
        exists s. split; [done|]. split; [|done].
        right. by exists joined.
      * exists [EvBound s], (Some true).
        right. split; [done|]. split; [done|].
        exists s. split; [done|]. split; [|done]. by left.
    + exists [EvBindFailed (InputOptions (mReceiveBufferSize t) true true)
                (mkEndpoint address_v6_any (to_uint16 (port locator)))],
             (Some false).
      left. split; [done|]. split; [done|]. right; right.
      split; [done|]. split; [done|]. by eexists _, _.
Qed.


Lemma Receive_eq t capacity size localLocator remoteLocator :
  exists evs result,
    Receive capacity size localLocator remoteLocator t
    = (result, record_events evs t) /\
    (evs = [] \/ exists s c, evs = [EvReceiveFrom s capacity c]).
Proof.
  unfold Receive. st_unfold.
  destruct (negb (IsInputChannelOpen t localLocator)
            || (capacity <? mReceiveBufferSize t)).
  { exists [], (false, size, remoteLocator). rewrite record_events_nil.
    split; [done | by left]. }
  destruct (mInputSockets t !! port localLocator) as [s|].
  2:{ exists [], (false, size, remoteLocator). rewrite record_events_nil.
      split; [done | by left]. }
  destruct (os_receive_from os (history t) s capacity) as [[n ep]|] eqn:Hc.
  - eexists _, _. split; [reflexivity|]. right. by eexists _, _.
  - eexists _, _. split; [reflexivity|]. right. by eexists _, _.
Qed.

(** *** Opening: failure, frame, what is bound *)

Lemma same_registries_record_events evs t :
  same_registries t (record_events evs t).
Proof. by repeat split. Qed.

(** X1. An [OpenOutputChannel] or [OpenInputChannel] that answers [false]
    leaves the three registries as they were, whatever made it fail: a
    foreign kind, a channel that is open, the interface filter, a name that
    does not parse, or a bind the system refuses after other binds of the
    same call went through. *)
Theorem failed_open_leaves_the_registries (locator : Locator_t) (t : UDPv6Transport) :
  (fst (OpenOutputChannel locator t) = false ->
   same_registries t (snd (OpenOutputChannel locator t))) /\
  (fst (OpenInputChannel locator t) = Some false ->
   same_registries t (snd (OpenInputChannel locator t))).
Proof.
  split.
  - destruct (OpenOutputChannel_cases locator t)
      as (evs & _ & [Heq|[(_ & _ & _ & socks & _ & Heq & _)
                         |(_ & _ & _ & s & _ & _ & _ & Heq)]]);
      rewrite Heq; simpl; [|done..].
    intros _. apply same_registries_record_events.
  - destruct (OpenInputChannel_cases locator t)
      as (evs & outcome & [[Heq _]|(_ & _ & s & _ & Hout & Heq)]);
      rewrite Heq; simpl.
    + intros _. apply same_registries_record_events.
    + intros ->.
      destruct Hout as [(_ & _ & [=])|(joined & _ & _ & _ & Hj)].
      by destruct joined.
Qed.

(** X2. Opening a channel changes nothing outside the entry of its own key:
    entries of the output registry under other keys, and the whole input
    registry, survive [OpenOutputChannel]; entries of the input registry
    under other ports, and both output registries, survive
    [OpenInputChannel]. *)
Theorem open_touches_its_own_key_only (locator : Locator_t) (t : UDPv6Transport) :
  (forall other,
     (if mGranularMode t then locator <> other else port locator <> port other) ->
     output_channel (snd (OpenOutputChannel locator t)) other
     = output_channel t other) /\
  mInputSockets (snd (OpenOutputChannel locator t)) = mInputSockets t /\
  (forall other_port, port locator <> other_port ->
     mInputSockets (snd (OpenInputChannel locator t)) !! other_port
     = mInputSockets t !! other_port) /\
  mOutputSockets (snd (OpenInputChannel locator t)) = mOutputSockets t /\
  mGranularOutputSockets (snd (OpenInputChannel locator t))
  = mGranularOutputSockets t.
Proof.
  split; [|split; [|split; [|split]]].
  - intros other Hne.
    destruct (OpenOutputChannel_cases locator t)
      as (evs & _ & [Heq|[(Hg & _ & _ & socks & _ & Heq & _)
                         |(Hg & _ & _ & s & _ & _ & _ & Heq)]]);
      rewrite Heq; simpl; [done| |].
    + rewrite Hg in Hne. unfold output_channel. simpl. rewrite Hg.
      unfold add_sockets. destruct socks; [done|].
      by rewrite lookup_insert_ne.
    + rewrite Hg in Hne. unfold output_channel. simpl. rewrite Hg.
      by rewrite lookup_insert_ne.
  - destruct (OpenOutputChannel_cases locator t)
      as (evs & _ & [Heq|[(_ & _ & _ & socks & _ & Heq & _)
                         |(_ & _ & _ & s & _ & _ & _ & Heq)]]);
      by rewrite Heq.
  - intros other_port Hne.
    destruct (OpenInputChannel_cases locator t)
      as (evs & outcome & [[Heq _]|(_ & _ & s & _ & _ & Heq)]);
      rewrite Heq; simpl; [done|].
    by rewrite lookup_insert_ne.
  - destruct (OpenInputChannel_cases locator t)
      as (evs & outcome & [[Heq _]|(_ & _ & s & _ & _ & Heq)]); by rewrite Heq.
  - destruct (OpenInputChannel_cases locator t)
      as (evs & outcome & [[Heq _]|(_ & _ & s & _ & _ & Heq)]); by rewrite Heq.
Qed.

(** X3. What [OpenOutputChannel] asks of the system, in the order it asks
    it.  First the enumeration of the interfaces, once, if the call gets
    that far: on a supported locator whose channel is not open, in shared
    mode, with a white list.  Then binds: whatever it asks the system to
    bind, granted or refused, is an output socket with the send buffer size
    of the configuration, on the port of the locator cut to sixteen bits,
    and on an address that [IsInterfaceAllowed] lets through.  Last, when
    the call answers [false], the destruction of every socket these binds
    obtained, in the order they were bound, as the handler erases the entry
    that holds them; a call that answers [true] destroys none. *)
Theorem OpenOutputChannel_binds_allowed_addresses_only
    (locator : Locator_t) (t : UDPv6Transport) :
  exists binds,
    Forall (allowed_bind_request t (port locator)) binds /\
    history (snd (OpenOutputChannel locator t))
    = history t
      ++ (if enumerates_interfaces t locator then [EvGetIPs] else [])
      ++ binds
      ++ (if fst (OpenOutputChannel locator t) then []
          else map EvDestroy (bound_sockets binds)).
Proof.
  destruct (OpenOutputChannel_cases locator t)
    as (evs & (binds & He & Hevs)
            & [Heq|[(_ & _ & _ & socks & _ & Heq & _)
                   |(_ & _ & _ & s & _ & _ & _ & Heq)]]);
    exists binds; (split; [done|]); rewrite <- Hevs; by rewrite Heq.
Qed.


Lemma IsOutputChannelOpen_record_events evs t locator :
  IsOutputChannelOpen (record_events evs t) locator = IsOutputChannelOpen t locator.
Proof. reflexivity. Qed.

Lemma endpoint_eq (ep : endpoint) (a : address_v6) (p : Z) :
  ep_address ep = a -> ep_port ep = p -> ep = mkEndpoint a p.
Proof. destruct ep. simpl. by intros -> ->. Qed.

(** X4. In granular mode, and in shared mode without a white list,
    [OpenOutputChannel] on a supported locator whose channel is not open
    answers [true] exactly when the channel is open afterwards, and then the
    channel holds one socket: bound to the address of the locator (granular)
    or to the wildcard address (shared), on the port cut to sixteen bits,
    with the send buffer size of the configuration. *)
Theorem open_output_registers_one_socket (locator : Locator_t) (t : UDPv6Transport) :
  kind locator = LOCATOR_KIND_UDPv6 ->
  IsOutputChannelOpen t locator = false ->
  mGranularMode t = true \/ mInterfaceWhiteList t = [] ->
  (fst (OpenOutputChannel locator t) = true <->
   IsOutputChannelOpen (snd (OpenOutputChannel locator t)) locator = true) /\
  (fst (OpenOutputChannel locator t) = true ->
   exists s,
     output_channel (snd (OpenOutputChannel locator t)) locator = Some [s] /\
     options s = OutputOptions (mSendBufferSize t) /\
     local_endpoint s =
       mkEndpoint (if mGranularMode t then Locator_address_v6 locator
                   else address_v6_any)
                  (to_uint16 (port locator))).
Proof.
  intros Hk%IsLocatorSupported_true Hclosed Hmode.
  destruct (OpenOutputChannel_cases locator t)
    as (evs & _ & [Heq|[(Hg & _ & Hnone & socks & Hs & Heq & Hw)
                       |(Hg & _ & Hnone & s & Hs & Ha & _ & Heq)]]);
    rewrite Heq; simpl.
  - rewrite IsOutputChannelOpen_record_events, Hclosed. by split.
  - destruct Hmode as [Hmode|Hmode]; [congruence|]. rewrite Hmode in Hw.
    destruct Hw as (s & -> & Ha).
    assert (Hch : output_channel
                    (set_mOutputSockets (add_sockets (port locator) [s])
                       (record_events evs t)) locator = Some [s]).
    { unfold output_channel. simpl. rewrite Hg. unfold add_sockets.
      by rewrite lookup_insert_eq, Hnone. }
    split.
    + split; [intros _|done]. apply IsOutputChannelOpen_true. by rewrite Hch.
    + intros _. exists s. split; [done|].
      apply Forall_inv in Hs. destruct Hs as (Ho & Hp & _).
      split; [done|]. rewrite Hg. by apply endpoint_eq.
  - assert (Hch : output_channel
                    (set_mGranularOutputSockets (insert locator s)
                       (record_events evs t)) locator = Some [s]).
    { unfold output_channel. simpl. rewrite Hg. by rewrite lookup_insert_eq. }
    split.
    + split; [intros _|done]. apply IsOutputChannelOpen_true. by rewrite Hch.
    + intros _. exists s. split; [done|].
      destruct Hs as (Ho & Hp & _).
      split; [done|]. rewrite Hg. by apply endpoint_eq.
Qed.


(** X6. The interface filter in granular mode, with a white list: a
    locator whose address is neither on the list nor the wildcard is turned
    down before any system call; a locator with the wildcard address is not
    filtered, whatever the list holds, and goes on to a bind on the wildcard
    address. *)
Theorem granular_filter_spares_the_wildcard (locator : Locator_t) (t : UDPv6Transport) :
  mGranularMode t = true ->
  mInterfaceWhiteList t <> [] ->
  kind locator = LOCATOR_KIND_UDPv6 ->
  mGranularOutputSockets t !! locator = None ->
  (address locator <> zero_octets ->
   Locator_address_v6 locator ∉ mInterfaceWhiteList t ->
   OpenOutputChannel locator t = (false, t)) /\
  (address locator = zero_octets ->
   exists e,
     history (snd (OpenOutputChannel locator t)) = history t ++ [e] /\
     let o := OutputOptions (mSendBufferSize t) in
     let ep := mkEndpoint address_v6_any (to_uint16 (port locator)) in
     (e = EvBindFailed o ep /\ fst (OpenOutputChannel locator t) = false \/
      exists h, e = EvBound (mkSocket h o ep) /\
                fst (OpenOutputChannel locator t) = true)).
Proof.
  intros Hg Hw Hk%IsLocatorSupported_true Hnone.
  pose proof (OpenOutputChannel_fresh_granular t locator Hk Hg Hnone) as Heq.
  simpl in Heq. split.
  - intros Hnz Hout.
    assert (Hno : IsInterfaceAllowed t (Locator_address_v6 locator) = false).
    { apply IsInterfaceAllowed_false. split; [done|]. split; [|done].
      unfold Locator_address_v6, address_v6_of_bytes, address_v6_any.
      intros [=]. done. }
    by rewrite Hno in Heq.
  - intros Hz.
    assert (Hany : Locator_address_v6 locator = address_v6_any).
    { unfold Locator_address_v6. by rewrite Hz. }
    rewrite Hany in Heq.
    assert (Hyes : IsInterfaceAllowed t address_v6_any = true).
    { unfold IsInterfaceAllowed. destruct (mInterfaceWhiteList t); [done|].
      by rewrite bool_decide_eq_true_2. }
    rewrite Hyes in Heq. rewrite Heq. simpl.
    destruct (os_open_and_bind os (history t) _ _) as [h|]; simpl.
    + eexists. split; [done|]. right. by exists h.
    + eexists. split; [done|]. by left.
Qed.


(** *** The invariant of the registries *)

Lemma bound_for_input_configuration t t' port s :
  same_configuration t t' -> bound_for_input t' port s <-> bound_for_input t port s.
Proof. intros (_ & _ & Hr & _ & _). unfold bound_for_input. by rewrite Hr. Qed.

Lemma registry_invariant_ext t t' :
  same_configuration t t' -> same_registries t t' ->
  registry_invariant t -> registry_invariant t'.
Proof.
  intros Hc (Ho & Hgr & Hi) (Hout & Hgran & Hin & Hmode).
  unfold registry_invariant. rewrite Ho, Hgr, Hi.
  split; [|split; [|split]].
  - intros port sockets Hl. destruct (Hout port sockets Hl) as [Hne Hall].
    split; [done|]. eapply Forall_impl; [exact Hall|]. intros s.
    by apply bound_for_output_configuration.
  - intros loc s Hl. destruct (Hgran loc s Hl) as [Hb Ha].
    split; [|done]. by apply (bound_for_output_configuration t t').
  - intros port s Hl. apply (bound_for_input_configuration t t'); [done|].
    by apply Hin.
  - destruct Hc as (_ & _ & _ & -> & _). done.
Qed.

Lemma registry_invariant_record_events evs t :
  registry_invariant t -> registry_invariant (record_events evs t).
Proof. by apply registry_invariant_ext. Qed.

Lemma registry_invariant_constructed a b c granularMode whiteList :
  registry_invariant (constructed a b c granularMode whiteList).
Proof.
  unfold registry_invariant, constructed. simpl.
  split; [|split; [|split]]; try (intros ? ? Hl; by rewrite lookup_empty in Hl).
  by destruct granularMode.
Qed.

Lemma registry_invariant_OpenOutputChannel locator t :
  registry_invariant t -> registry_invariant (snd (OpenOutputChannel locator t)).
Proof.
  intros Hinv.
  destruct (OpenOutputChannel_cases locator t)
    as (evs & _ & [Heq|[(Hg & _ & Hnone & socks & Hs & Heq & _)
                       |(Hg & _ & Hnone & s & Hs & Ha & _ & Heq)]]);
    rewrite Heq; simpl.
  - by apply registry_invariant_record_events.
  - destruct Hinv as (Hout & Hgran & Hin & Hmode).
    split; [|split; [|split]]; simpl; [|done|done|by rewrite Hg in *].
    intros p sockets. unfold add_sockets. destruct socks as [|s0 socks]; [apply Hout|].
    destruct (decide (port locator = p)) as [<-|Hne].
    + rewrite lookup_insert_eq, Hnone. simpl. intros [= <-]. by split.
    + rewrite lookup_insert_ne by done. apply Hout.
  - destruct Hinv as (Hout & Hgran & Hin & Hmode).
    split; [|split; [|split]]; simpl; [done| |done|by rewrite Hg in *].
    intros loc s'. destruct (decide (locator = loc)) as [<-|Hne].
    + rewrite lookup_insert_eq. intros [= <-]. by split.
    + rewrite lookup_insert_ne by done. apply Hgran.
Qed.

Lemma registry_invariant_OpenInputChannel locator t :
  registry_invariant t -> registry_invariant (snd (OpenInputChannel locator t)).
Proof.
  intros Hinv.
  destruct (OpenInputChannel_cases locator t)
    as (evs & outcome & [[Heq _]|(_ & Hnone & s & Hs & _ & Heq)]);
    rewrite Heq; simpl.
  - by apply registry_invariant_record_events.
  - destruct Hinv as (Hout & Hgran & Hin & Hmode).
    split; [|split; [|split]]; simpl; [done|done| |done].
    intros p s'. destruct (decide (port locator = p)) as [<-|Hne].
    + rewrite lookup_insert_eq. by intros [= <-].
    + rewrite lookup_insert_ne by done. apply Hin.
Qed.

Lemma registry_invariant_CloseOutputChannel locator t :
  registry_invariant t -> registry_invariant (snd (CloseOutputChannel locator t)).
Proof.
  intros Hinv.
  destruct (IsOutputChannelOpen t locator) eqn:Hopen.
  2:{ by rewrite CloseOutputChannel_not_open. }
  apply IsOutputChannelOpen_true in Hopen as [Hk [sockets Hch]].
  rewrite (CloseOutputChannel_open t locator sockets Hk Hch). simpl.
  destruct Hinv as (Hout & Hgran & Hin & Hmode).
  unfold output_channel_erased. destruct (mGranularMode t) eqn:Hg.
  - split; [|split; [|split]]; simpl; [done| |done|by rewrite Hg].
    intros loc s [_ Hl]%lookup_delete_Some. by apply Hgran.
  - split; [|split; [|split]]; simpl; [|done|done|by rewrite Hg].
    intros p socks [_ Hl]%lookup_delete_Some. by apply Hout.
Qed.

Lemma registry_invariant_CloseInputChannel locator t :
  registry_invariant t -> registry_invariant (snd (CloseInputChannel locator t)).
Proof.
  intros Hinv.
  destruct (IsInputChannelOpen t locator) eqn:Hopen.
  2:{ by rewrite CloseInputChannel_not_open. }
  apply IsInputChannelOpen_true in Hopen as [Hk [s Hs]].
  rewrite (CloseInputChannel_open t locator s Hk Hs). simpl.
  destruct Hinv as (Hout & Hgran & Hin & Hmode).
  split; [|split; [|split]]; simpl; [done|done| |done].
  intros p s' [_ Hl]%lookup_delete_Some. by apply Hin.
Qed.

(** [Send] on an open channel, for a length within the send buffer size. *)
Lemma Send_open_eq sendBuffer sendBufferSize localLocator remoteLocator t sockets :
  IsLocatorSupported localLocator = true ->
  output_channel t localLocator = Some sockets ->
  sendBufferSize <= mSendBufferSize t ->
  let outcomes := send_outcomes sendBuffer sendBufferSize
                    (destination_of remoteLocator) (history t) sockets in
  Send sendBuffer sendBufferSize localLocator remoteLocator t =
  (existsb id outcomes,
   record_events (write_events sendBuffer sendBufferSize
                    (destination_of remoteLocator) sockets outcomes) t).
Proof.
  intros Hk Hch Hlen.
  assert (Hopen : IsOutputChannelOpen t localLocator = true)
    by (apply IsOutputChannelOpen_true; split; [done | by exists sockets]).
  assert (Hgt : (sendBufferSize >? mSendBufferSize t) = false)
    by (rewrite Z.gtb_ltb; apply Z.ltb_ge; lia).
  unfold Send. st_unfold. rewrite Hopen, Hgt. simpl.
  unfold output_channel in Hch. destruct (mGranularMode t).
  - destruct (mGranularOutputSockets t !! localLocator) as [s|]; [|done].
    simpl in Hch. injection Hch as <-.
    pose proof (SendThroughSocket_eq sendBuffer sendBufferSize remoteLocator s t) as Hs.
    simpl in Hs. unfold bind, ret in Hs. rewrite Hs. simpl.
    by rewrite orb_false_r.
  - rewrite Hch.
    pose proof (send_through_all_eq sendBuffer sendBufferSize remoteLocator
                  sockets t false) as Hall.
    simpl in Hall. by rewrite Hall.
Qed.

Lemma Send_effect sendBuffer sendBufferSize localLocator remoteLocator t :
  exists evs,
    snd (Send sendBuffer sendBufferSize localLocator remoteLocator t)
    = record_events evs t.
Proof.
  destruct (IsOutputChannelOpen t localLocator) eqn:Hopen.
  2:{ exists []. by rewrite Send_not_open, record_events_nil. }
  destruct (Z_le_gt_dec sendBufferSize (mSendBufferSize t)) as [Hle|Hgt].
  - apply IsOutputChannelOpen_true in Hopen as [Hk [sockets Hch]].
    eexists. by rewrite (Send_open_eq _ _ _ _ _ sockets Hk Hch Hle).
  - exists []. rewrite record_events_nil. unfold Send. st_unfold.
    assert (Hg : (sendBufferSize >? mSendBufferSize t) = true)
      by (rewrite Z.gtb_ltb; apply Z.ltb_lt; lia).
    by rewrite Hg, orb_true_r.
Qed.

Lemma init_effect t :
  init t = (false, t) \/
  init t = (true, record_events [EvThreadStart] (set_ioServiceThread true t)).
Proof.
  destruct (Z_le_gt_dec (mMaxMessageSize t) 65500) as [H1|H1];
  [destruct (Z_le_gt_dec (mMaxMessageSize t) (mSendBufferSize t)) as [H2|H2];
   [destruct (Z_le_gt_dec (mMaxMessageSize t) (mReceiveBufferSize t)) as [H3|H3]|]|].
  1: right; by apply init_true.
  all: left; apply init_false; lia.
Qed.

Lemma registry_invariant_run_call c t :
  registry_invariant t -> registry_invariant (run_call c t).
Proof.
  intros Hinv. destruct c; simpl.
  - destruct (init_effect t) as [-> | ->]; simpl; [done|].
    by apply (registry_invariant_ext t).
  - by apply registry_invariant_OpenOutputChannel.
  - by apply registry_invariant_OpenInputChannel.
  - by apply registry_invariant_CloseOutputChannel.
  - by apply registry_invariant_CloseInputChannel.
  - destruct (Send_effect sendBuffer sendBufferSize localLocator remoteLocator t)
      as [evs ->]. by apply registry_invariant_record_events.
  - destruct (Receive_eq t receiveBufferCapacity receiveBufferSize localLocator
                remoteLocator) as (evs & r & -> & _).
    by apply registry_invariant_record_events.
Qed.

Lemma registry_invariant_run_calls cs :
  forall t, registry_invariant t -> registry_invariant (run_calls cs t).
Proof.
  unfold run_calls. induction cs as [|c cs IH]; intros t Hinv; simpl; [done|].
  by apply IH, registry_invariant_run_call.
Qed.

(** X7. After any sequence of public calls on a transport that has just
    been constructed, whatever the system answered: an entry of the shared
    output registry is never empty; every output socket has the send buffer
    size of the configuration, the port of its key cut to sixteen bits and
    an address the interface filter lets through; a granular socket is bound
    to the address of its locator; every input socket is bound to the
    wildcard address on the port of its key cut to sixteen bits, with the
    receive buffer size of the configuration, address reuse and multicast
    loopback; and the output registry of the policy not in force is
    empty. *)
Theorem registry_invariant_after_any_calls
    (cs : list call)
    (maxMessageSize sendBufferSize receiveBufferSize : Z)
    (granularMode : bool) (interfaceWhiteList : list address_v6) :
  registry_invariant
    (run_calls cs (constructed maxMessageSize sendBufferSize receiveBufferSize
                     granularMode interfaceWhiteList)).
Proof.
  apply registry_invariant_run_calls, registry_invariant_constructed.
Qed.


(** X8. After any sequence of public calls on a transport that has just
    been constructed, a [Send] through an open output channel, for a length
    within the send buffer size, makes at least one write: an open channel
    always holds a socket.  The first write goes through a socket bound for
    the port of the local locator. *)
Theorem Send_on_an_open_channel_writes
    (cs : list call)
    (maxMessageSize sendBufferSize' receiveBufferSize : Z)
    (granularMode : bool) (interfaceWhiteList : list address_v6)
    (sendBuffer : list Z) (sendBufferSize : Z)
    (localLocator remoteLocator : Locator_t) :
  let t := run_calls cs (constructed maxMessageSize sendBufferSize'
                           receiveBufferSize granularMode interfaceWhiteList) in
  IsOutputChannelOpen t localLocator = true ->
  sendBufferSize <= mSendBufferSize t ->
  exists s sent rest,
    history (snd (Send sendBuffer sendBufferSize localLocator remoteLocator t))
    = history t
      ++ EvSendTo s sendBuffer sendBufferSize (destination_of remoteLocator) sent
         :: rest /\
    bound_for_output t (port localLocator) s.
Proof.
  intros t [Hk [sockets Hch]]%IsOutputChannelOpen_true Hlen.
  assert (Hinv : registry_invariant t)
    by apply registry_invariant_run_calls, registry_invariant_constructed.
  rewrite (Send_open_eq _ _ _ _ _ sockets Hk Hch Hlen). simpl.
  destruct Hinv as (Hout & Hgran & _ & _).
  assert (Hs : sockets <> [] /\ Forall (bound_for_output t (port localLocator)) sockets).
  { unfold output_channel in Hch. destruct (mGranularMode t).
    - destruct (mGranularOutputSockets t !! localLocator) as [s|] eqn:Hl; [|done].
      simpl in Hch. injection Hch as <-. split; [done|].
      constructor; [|done]. by apply Hgran.
    - by apply Hout. }
  destruct Hs as [Hne Hall]. destruct sockets as [|s rest]; [done|].
  simpl. eexists s, _, _. split; [reflexivity|]. by apply Forall_inv in Hall.
Qed.

(** *** Open and close, one after the other *)

(** X9. Closing the channel that an open call has just opened undoes the
    registration: after an [OpenOutputChannel] that answered [true] and the
    [CloseOutputChannel] of the same locator, and after an
    [OpenInputChannel] that answered [true] and the [CloseInputChannel] of
    the same locator, which then answers [true], the three registries are
    what they were before the open. *)
Theorem open_then_close_restores_the_registries
    (locator : Locator_t) (t : UDPv6Transport) :
  (fst (OpenOutputChannel locator t) = true ->
   same_registries t
     (snd (CloseOutputChannel locator (snd (OpenOutputChannel locator t))))) /\
  (fst (OpenInputChannel locator t) = Some true ->
   fst (CloseInputChannel locator (snd (OpenInputChannel locator t))) = true /\
   same_registries t
     (snd (CloseInputChannel locator (snd (OpenInputChannel locator t))))).
Proof.
  split.
  - destruct (OpenOutputChannel_cases locator t)
      as (evs & _ & [Heq|[(Hg & Hk & Hnone & socks & _ & Heq & _)
                         |(Hg & Hk & Hnone & s & _ & _ & _ & Heq)]]);
      rewrite Heq; simpl; [done| |]; intros _.
    + destruct socks as [|s0 socks].
      * rewrite CloseOutputChannel_not_open; [done|].
        unfold IsOutputChannelOpen. simpl.
        by rewrite Hk, Hg, (proj2 (contains_false _ _) Hnone).
      * rewrite (CloseOutputChannel_open _ locator (s0 :: socks) Hk).
        2:{ unfold output_channel, add_sockets. simpl.
            by rewrite Hg, lookup_insert_eq, Hnone. }
        unfold output_channel_erased, add_sockets. simpl. rewrite Hg.
        split; [|done]. simpl.
        by rewrite delete_insert_eq, (delete_id _ _ Hnone).
    + rewrite (CloseOutputChannel_open _ locator [s] Hk).
      2:{ unfold output_channel. simpl. by rewrite Hg, lookup_insert_eq. }
      unfold output_channel_erased. simpl. rewrite Hg.
      split; [done|]. split; [|done]. simpl.
      by rewrite delete_insert_eq, (delete_id _ _ Hnone).
  - destruct (OpenInputChannel_cases locator t)
      as (evs & outcome & [(Heq & Hout & _)|(Hk & Hnone & s & _ & _ & Heq)]);
      rewrite Heq; simpl; [done|]; intros _.
    rewrite (CloseInputChannel_open _ locator s Hk)
      by (simpl; by rewrite lookup_insert_eq).
    split; [done|]. split; [done|]. split; [done|]. simpl.
    by rewrite delete_insert_eq, (delete_id _ _ Hnone).
Qed.

(** *** Input channels: one per port *)

(** X10. [OpenInputChannel] on a supported locator.  When it answers
    [true] the channel was not open and is open afterwards; when it answers
    [false] the channel is open or not as it was; when it is left by the
    exception the address is a multicast one and the channel is open
    afterwards, whether this call opened it or found it open.  Every
    supported locator with the same port sees the same channel.  The call
    asks for a group join exactly when the address is a multicast one and
    the channel is open once the socket is settled: on the socket registered
    for the port, for the group of the locator's address, never after a bind
    that failed.  The join is the last thing the call asks of the system,
    its answer is the system's, and the call is left by the exception
    exactly when the system refuses it. *)
Theorem OpenInputChannel_opens_per_port_and_joins
    (locator : Locator_t) (t : UDPv6Transport) :
  kind locator = LOCATOR_KIND_UDPv6 ->
  let outcome := fst (OpenInputChannel locator t) in
  let t' := snd (OpenInputChannel locator t) in
  (outcome = Some true ->
   IsInputChannelOpen t locator = false /\ IsInputChannelOpen t' locator = true) /\
  (outcome = Some false ->
   IsInputChannelOpen t' locator = IsInputChannelOpen t locator) /\
  (outcome = None ->
   IsMulticastAddress locator = true /\ IsInputChannelOpen t' locator = true) /\
  (forall other, kind other = LOCATOR_KIND_UDPv6 -> port other = port locator ->
     IsInputChannelOpen t' other = IsInputChannelOpen t' locator) /\
  exists evs,
    history t' = history t ++ evs /\
    (forall s g joined,
       EvJoinGroup s g joined ∈ evs <->
       IsMulticastAddress locator = true /\
       mInputSockets t' !! port locator = Some s /\
       g = Locator_address_v6 locator /\
       joined = match outcome with Some _ => true | None => false end) /\
    (forall pre s g joined post,
       evs = pre ++ EvJoinGroup s g joined :: post ->
       post = [] /\ joined = os_join_group os (history t ++ pre) s g).
Proof.
  intros Hk%IsLocatorSupported_true.
  assert (Hsame : forall t' other,
            kind other = LOCATOR_KIND_UDPv6 -> port other = port locator ->
            IsInputChannelOpen t' other = IsInputChannelOpen t' locator).
  { intros t' other Hko%IsLocatorSupported_true Hp.
    unfold IsInputChannelOpen. by rewrite Hk, Hko, Hp. }
  assert (Hlast : forall (e : event) pre s g joined post,
            [e] = pre ++ EvJoinGroup s g joined :: post ->
            pre = [] /\ post = [] /\ e = EvJoinGroup s g joined).
  { intros e [|x pre] s g joined post; simpl.
    - by intros [= -> <-].
    - intros [= _ Hnil]. by destruct pre. }
  destruct (OpenInputChannel_cases locator t)
    as (evs & outcome & [(Heq & Hnt & Hevs)|(_ & Hnone & s & _ & Hevs & Heq)]);
    rewrite Heq; simpl.
  - split; [done|]. split; [done|].
    destruct Hevs as [[-> ->]
                     |[(s & joined & Hs & _ & Hm & Hj & -> & ->)
                      |(Hnone & -> & o & ep & ->)]].
    + split; [done|]. split; [intros other; apply Hsame|].
      exists []. split; [done|]. split.
      * intros s g joined. split; [by intros ?%elem_of_nil|].
        intros (Hm & Hl & _).
        exfalso. revert Heq. rewrite record_events_nil.
        rewrite (OpenInputChannel_open t locator s Hk Hl), Hm. simpl.
        intros [= _ Ht]. apply (f_equal history) in Ht. simpl in Ht.
        apply (f_equal length) in Ht. rewrite length_app in Ht. simpl in Ht. lia.
      * intros [|x pre] s g joined post; done.
    + split.
      { intros _. split; [done|]. apply IsInputChannelOpen_true. eauto. }
      split; [intros other; apply Hsame|].
      eexists. split; [done|]. split.
      * intros s' g joined'. rewrite list_elem_of_singleton. split.
        -- intros [= -> -> ->]. repeat split; try done. by destruct joined.
        -- intros (_ & Hl & -> & ->). rewrite Hs in Hl. injection Hl as ->.
           by destruct joined.
      * intros pre s' g joined' post Hsplit.
        apply Hlast in Hsplit as (-> & -> & [= <- <- <-]).
        by rewrite app_nil_r.
    + split; [done|]. split; [intros other; apply Hsame|].
      eexists. split; [done|]. split.
      * intros s g joined. rewrite list_elem_of_singleton. split; [done|].
        intros (_ & Hl & _). by rewrite Hnone in Hl.
      * intros pre s g joined post Hsplit.
        by apply Hlast in Hsplit as (_ & _ & [=]).
  - assert (Hclosed : IsInputChannelOpen t locator = false).
    { unfold IsInputChannelOpen.
      by rewrite (proj2 (contains_false _ _) Hnone), andb_false_r. }
    assert (Hopen : IsInputChannelOpen
                      (set_mInputSockets (insert (port locator) s)
                         (record_events evs t)) locator = true).
    { unfold IsInputChannelOpen, contains. simpl.
      by rewrite Hk, lookup_insert_eq. }
    rewrite Hopen, Hclosed.
    split; [done|].
    destruct Hevs as [(Hm & -> & ->)|(joined & Hm & Hj & -> & ->)].
    + split; [done|]. split; [done|]. split; [intros other Ho Hp; by rewrite (Hsame _ other Ho Hp)|].
      eexists. split; [done|]. split.
      * intros s' g joined. rewrite list_elem_of_singleton, Hm.
        split; [done | by intros [? _]].
      * intros pre s' g joined post Hsplit.
        by apply Hlast in Hsplit as (_ & _ & [=]).
    + split; [by destruct joined|]. split; [done|].
      split; [intros other Ho Hp; by rewrite (Hsame _ other Ho Hp)|].
      eexists. split; [done|]. split.
      * intros s' g joined'. rewrite lookup_insert_eq.
        rewrite elem_of_cons, list_elem_of_singleton. split.
        -- intros [?|[= -> -> ->]]; [done|]. repeat split; try done.
           by destruct joined.
        -- intros (_ & [= ->] & -> & ->). right. by destruct joined.
      * intros [|x pre] s' g joined' post; simpl; [done|].
        intros [= <- Hsplit].
        apply Hlast in Hsplit as (-> & -> & [= <- <- <-]). done.
Qed.


(** X11. The registries are keyed by the 32-bit port of the locator while
    a socket is bound to that port cut to sixteen bits.  After any sequence
    of public calls on a transport that has just been constructed, two
    input channels whose ports agree modulo 65536 hold sockets bound to one
    and the same local endpoint, although they are two entries. *)
Theorem input_ports_alias_modulo_65536
    (cs : list call)
    (maxMessageSize sendBufferSize receiveBufferSize : Z)
    (granularMode : bool) (interfaceWhiteList : list address_v6)
    (port1 port2 : Z) (s1 s2 : socket) :
  let t := run_calls cs (constructed maxMessageSize sendBufferSize
                           receiveBufferSize granularMode interfaceWhiteList) in
  mInputSockets t !! port1 = Some s1 ->
  mInputSockets t !! port2 = Some s2 ->
  port1 mod 65536 = port2 mod 65536 ->
  local_endpoint s1 = local_endpoint s2 /\ options s1 = options s2.
Proof.
  intros t H1 H2 Hmod.
  assert (Hinv : registry_invariant t)
    by apply registry_invariant_run_calls, registry_invariant_constructed.
  destruct Hinv as (_ & _ & Hin & _).
  destruct (Hin _ _ H1) as [Ho1 He1]. destruct (Hin _ _ H2) as [Ho2 He2].
  unfold to_uint16 in *. by rewrite Ho1, Ho2, He1, He2, Hmod.
Qed.

(** *** Receiving *)

(** X12. [Receive] answers [false] without registering a read, and leaves
    the two out-parameters and the object as they were, when the input
    channel of the local locator is not open or the capacity of the buffer
    is below the receive buffer size. *)
Theorem Receive_refuses_before_reading
    (receiveBufferCapacity receiveBufferSize : Z)
    (localLocator remoteLocator : Locator_t) (t : UDPv6Transport) :
  IsInputChannelOpen t localLocator = false \/
  receiveBufferCapacity < mReceiveBufferSize t ->
  Receive receiveBufferCapacity receiveBufferSize localLocator remoteLocator t
  = (false, receiveBufferSize, remoteLocator, t).
Proof.
  intros [Hclosed|Hsmall]; [by apply Receive_not_open|].
  unfold Receive. st_unfold.
  apply Z.ltb_lt in Hsmall. by rewrite Hsmall, orb_true_r.
Qed.

(** X13. On an open input channel, with a buffer of at least the receive
    buffer size, [Receive] registers one read, on the socket of the local
    port, and changes nothing else.  It answers [true] exactly when the read
    completes without error; then the size reported is the number of bytes
    transferred, as a 32-bit value, and the remote locator carries the port
    and the address bytes of the sender.  When the read completes with an
    error the size reported is zero and the remote locator is the one
    passed in. *)
Theorem Receive_reports_the_completion
    (receiveBufferCapacity receiveBufferSize : Z)
    (localLocator remoteLocator : Locator_t) (t : UDPv6Transport) :
  IsInputChannelOpen t localLocator = true ->
  mReceiveBufferSize t <= receiveBufferCapacity ->
  exists s completion success size' remote',
    mInputSockets t !! port localLocator = Some s /\
    completion = os_receive_from os (history t) s receiveBufferCapacity /\
    Receive receiveBufferCapacity receiveBufferSize localLocator remoteLocator t
    = (success, size', remote',
       record_events [EvReceiveFrom s receiveBufferCapacity completion] t) /\
    (success = true <-> is_Some completion) /\
    (forall n sender, completion = Some (n, sender) ->
       size' = n mod 2 ^ 32 /\
       port remote' = ep_port sender /\
       address remote' = to_bytes (ep_address sender)) /\
    (completion = None -> size' = 0 /\ remote' = remoteLocator).
Proof.
  intros Hopen Hcap.
  pose proof Hopen as [_ [s Hs]]%IsInputChannelOpen_true.
  assert (Hlt : (receiveBufferCapacity <? mReceiveBufferSize t) = false)
    by (apply Z.ltb_ge; lia).
  unfold Receive. st_unfold. rewrite Hopen, Hlt, Hs. simpl.
  destruct (os_receive_from os (history t) s receiveBufferCapacity)
    as [[n sender]|] eqn:Hc.
  - exists s, (Some (n, sender)), true, (n mod 2 ^ 32), (EndpointToLocator sender).
    split; [done|]. split; [done|]. split; [done|]. split; [by split|].
    split; [|done]. by intros ? ? [= <- <-].
  - exists s, None, false, 0, remoteLocator.
    split; [done|]. split; [done|]. split; [done|].
    split; [|done]. split; [done | by intros [? ?]].
Qed.

(** X14. Replying to a sender: a write addressed to the locator that
    [EndpointToLocator] makes of an endpoint goes to that very endpoint,
    when the endpoint has no scope id and its port is a 16-bit value. *)
Theorem reply_reaches_the_sender
    (sendBuffer : list Z) (sendBufferSize : Z) (sender : endpoint)
    (socket : socket) (t : UDPv6Transport) :
  scope_id (ep_address sender) = 0 ->
  0 <= ep_port sender < 65536 ->
  exists sent,
    SendThroughSocket sendBuffer sendBufferSize (EndpointToLocator sender) socket t
    = (sent, record_events [EvSendTo socket sendBuffer sendBufferSize sender sent] t).
Proof.
  intros Hscope Hport.
  pose proof (SendThroughSocket_eq sendBuffer sendBufferSize
                (EndpointToLocator sender) socket t) as Heq.
  simpl in Heq.
  assert (Hdest : destination_of (EndpointToLocator sender) = sender).
  { destruct sender as [[bytes scope] p]. simpl in *. subst scope.
    unfold destination_of, EndpointToLocator, address_v6_of_bytes, to_uint16.
    simpl. by rewrite Z.mod_small. }
  rewrite Hdest in Heq. eexists. exact Heq.
Qed.

(** *** Matching locators *)

(** X15. [DoLocatorsMatch] is an equivalence on locators, under either
    policy. *)
Theorem DoLocatorsMatch_is_an_equivalence (t : UDPv6Transport) :
  (forall a, DoLocatorsMatch t a a = true) /\
  (forall a b, DoLocatorsMatch t a b = DoLocatorsMatch t b a) /\
  (forall a b c, DoLocatorsMatch t a b = true -> DoLocatorsMatch t b c = true ->
                 DoLocatorsMatch t a c = true).
Proof.
  split; [apply DoLocatorsMatch_refl|]. split.
  - intros a b. unfold DoLocatorsMatch. destruct (mGranularMode t).
    + apply bool_decide_ext. by split.
    + apply Z.eqb_sym.
  - intros a b c. rewrite !DoLocatorsMatch_true.
    destruct (mGranularMode t); congruence.
Qed.

(** X16. Locators that match name the same channels: the same entry of the
    output registry, under the policy in force, and the same entry of the
    input registry; if their kinds agree as well, the two queries answer
    alike for both. *)
Theorem matching_locators_share_their_channels (t : UDPv6Transport) (a b : Locator_t) :
  DoLocatorsMatch t a b = true ->
  output_channel t a = output_channel t b /\
  mInputSockets t !! port a = mInputSockets t !! port b /\
  (kind a = kind b ->
   IsOutputChannelOpen t a = IsOutputChannelOpen t b /\
   IsInputChannelOpen t a = IsInputChannelOpen t b).
Proof.
  intros Hm%DoLocatorsMatch_true.
  unfold output_channel, IsOutputChannelOpen, IsInputChannelOpen, IsLocatorSupported.
  destruct (mGranularMode t).
  - subst b. by repeat split.
  - rewrite Hm. split; [done|]. split; [done|]. by intros ->.
Qed.

(** *** What no call changes *)

Lemma run_call_configuration c t :
  same_configuration t (run_call c t) /\
  (ioServiceThread t = true -> ioServiceThread (run_call c t) = true).
Proof.
  destruct c as [|l|l|l|l|b n l r|cap n l r]; simpl.
  - destruct (init_effect t) as [-> | ->]; by repeat split.
  - destruct (OpenOutputChannel_cases l t)
      as (evs & _ & [Heq|[(_ & _ & _ & socks & _ & Heq & _)
                         |(_ & _ & _ & s & _ & _ & _ & Heq)]]);
      rewrite Heq; by repeat split.
  - destruct (OpenInputChannel_cases l t)
      as (evs & outcome & [[Heq _]|(_ & _ & s & _ & _ & Heq)]);
      rewrite Heq; by repeat split.
  - destruct (IsOutputChannelOpen t l) eqn:Hopen.
    2:{ rewrite CloseOutputChannel_not_open by done. by repeat split. }
    apply IsOutputChannelOpen_true in Hopen as [Hk [sockets Hch]].
    rewrite (CloseOutputChannel_open t l sockets Hk Hch).
    unfold output_channel_erased. by destruct (mGranularMode t) eqn:Hg;
      repeat split.
  - destruct (IsInputChannelOpen t l) eqn:Hopen.
    2:{ rewrite CloseInputChannel_not_open by done. by repeat split. }
    apply IsInputChannelOpen_true in Hopen as [Hk [s Hs]].
    rewrite (CloseInputChannel_open t l s Hk Hs). by repeat split.
  - destruct (Send_effect b n l r t) as [evs ->]. by repeat split.
  - destruct (Receive_eq t cap n l r) as (evs & res & -> & _). by repeat split.
Qed.

(** X17. No sequence of public calls changes the configuration the
    constructor took from the descriptor (the three sizes, the policy, the
    white list), and none unsets the thread handle once [init] has set it,
    so the destructor still has the thread to stop and join. *)
Theorem calls_keep_the_configuration_and_the_thread
    (cs : list call) (t : UDPv6Transport) :
  same_configuration t (run_calls cs t) /\
  (ioServiceThread t = true ->
   ioServiceThread (run_calls cs t) = true /\
   exists evs,
     history (snd (destroy (run_calls cs t)))
     = history (run_calls cs t) ++ evs /\
     evs = [EvServiceStop; EvThreadJoin]).
Proof.
  assert (Hrun : forall cs t,
            same_configuration t (run_calls cs t) /\
            (ioServiceThread t = true -> ioServiceThread (run_calls cs t) = true)).
  { clear cs t. unfold run_calls.
    induction cs as [|c cs IH]; intros t; simpl; [by repeat split|].
    destruct (run_call_configuration c t) as [Hc Ht].
    destruct (IH (run_call c t)) as [Hc' Ht'].
    split; [|by auto].
    destruct Hc as (? & ? & ? & ? & ?), Hc' as (? & ? & ? & ? & ?).
    unfold same_configuration. repeat split; congruence. }
  destruct (Hrun cs t) as [Hc Ht]. split; [done|].
  intros Hth. split; [by apply Ht|].
  exists [EvServiceStop; EvThreadJoin]. split; [|done].
  unfold destroy. st_unfold. rewrite (Ht Hth). simpl.
  by rewrite <- app_assoc.
Qed.


(** *** Locators are used through their key *)

Lemma IsLocatorSupported_kind a b :
  kind a = kind b -> IsLocatorSupported a = IsLocatorSupported b.
Proof. intros Hk. unfold IsLocatorSupported. by rewrite Hk. Qed.

(** X19. On the output side a local locator counts through its kind and
    its key only: for two locators of the same kind that [DoLocatorsMatch]
    matches, [OpenOutputChannel], [CloseOutputChannel] and [Send] do the
    same and answer the same.  In shared mode the address of the local
    locator is therefore never looked at. *)
Theorem matching_locators_are_interchangeable_for_output
    (t : UDPv6Transport) (a b : Locator_t)
    (sendBuffer : list Z) (sendBufferSize : Z) (remoteLocator : Locator_t) :
  DoLocatorsMatch t a b = true ->
  kind a = kind b ->
  OpenOutputChannel a t = OpenOutputChannel b t /\
  CloseOutputChannel a t = CloseOutputChannel b t /\
  Send sendBuffer sendBufferSize a remoteLocator t
  = Send sendBuffer sendBufferSize b remoteLocator t.
Proof.
  intros Hm%DoLocatorsMatch_true Hk.
  destruct (mGranularMode t) eqn:Hg; [by subst b|].
  assert (Hs : IsLocatorSupported a = IsLocatorSupported b)
    by by apply IsLocatorSupported_kind.
  assert (Ho : IsOutputChannelOpen t a = IsOutputChannelOpen t b).
  { unfold IsOutputChannelOpen. by rewrite Hs, Hg, Hm. }
  split; [|split].
  - unfold OpenOutputChannel. st_unfold. by rewrite Ho, Hs, Hg, Hm.
  - unfold CloseOutputChannel. st_unfold. by rewrite Ho, Hg, Hm.
  - unfold Send. st_unfold. by rewrite Ho, Hg, Hm.
Qed.

(** X20. On the input side a local locator counts through its kind and
    its port: for two locators that agree on both, [IsInputChannelOpen],
    [CloseInputChannel] and [Receive] do the same and answer the same, under
    either policy; and [OpenInputChannel] does too when neither address is a
    multicast one. *)
Theorem input_side_reads_kind_and_port
    (t : UDPv6Transport) (a b : Locator_t)
    (receiveBufferCapacity receiveBufferSize : Z) (remoteLocator : Locator_t) :
  kind a = kind b ->
  port a = port b ->
  IsInputChannelOpen t a = IsInputChannelOpen t b /\
  CloseInputChannel a t = CloseInputChannel b t /\
  Receive receiveBufferCapacity receiveBufferSize a remoteLocator t
  = Receive receiveBufferCapacity receiveBufferSize b remoteLocator t /\
  (IsMulticastAddress a = false -> IsMulticastAddress b = false ->
   OpenInputChannel a t = OpenInputChannel b t).
Proof.
  intros Hk Hp.
  assert (Hs : IsLocatorSupported a = IsLocatorSupported b)
    by by apply IsLocatorSupported_kind.
  assert (Ho : forall t', IsInputChannelOpen t' a = IsInputChannelOpen t' b).
  { intros t'. unfold IsInputChannelOpen. by rewrite Hs, Hp. }
  split; [apply Ho|]. split; [|split].
  - unfold CloseInputChannel. st_unfold. by rewrite Ho, Hp.
  - unfold Receive. st_unfold. by rewrite Ho, Hp.
  - intros Ha Hb. unfold OpenInputChannel. st_unfold.
    rewrite Hs, Ho, Hp, Ha, Hb. done.
Qed.


End Transport.

(** ** The properties on the small network *)

Import Scenario.

Lemma push_back_appends_or_skips_unique (l : list Locator_t) (x : Locator_t) :
  push_back l x = l ++ [x] \/ (x ∈ l /\ push_back l x = l).
Proof. unfold push_back. destruct (decide (x ∈ l)); auto. Qed.

(** C2 at a UDPv4 locator, on a transport that has just been constructed. *)
Lemma foreign_kind_channel_operations_fail_witness :
  kind foreign_7400 <> UDPv6 /\
  OpenOutputChannel UDPv6 os foreign_7400 shared = (false, shared) /\
  OpenInputChannel UDPv6 os foreign_7400 shared = (Some false, shared) /\
  CloseOutputChannel UDPv6 foreign_7400 shared = (false, shared) /\
  CloseInputChannel UDPv6 foreign_7400 shared = (false, shared) /\
  IsOutputChannelOpen UDPv6 shared foreign_7400 = false /\
  IsInputChannelOpen UDPv6 shared foreign_7400 = false.
Proof.
  assert (Hk : kind foreign_7400 <> UDPv6) by (vm_compute; discriminate).
  split; [exact Hk|].
  exact (foreign_kind_channel_operations_fail UDPv6 os shared foreign_7400 Hk).
Defined.

(** C1 on the white-listed transport: before the channel is opened, and
    after, when the channel holds one socket per interface. *)
Lemma Send_fans_out_witness :
  Send UDPv6 os [1; 2; 3] 3 any_7400 remote_7410 listed = (false, listed) /\
  exists (sockets : list socket) (outcomes : list bool) (success : bool),
    let t := snd (OpenOutputChannel UDPv6 os any_7400 listed) in
    let writes := write_events [1; 2; 3] 3 (destination_of remote_7410)
                    sockets outcomes in
    output_channel t any_7400 = Some sockets /\
    Send UDPv6 os [1; 2; 3] 3 any_7400 remote_7410 t
      = (success, record_events writes t) /\
    length outcomes = length sockets /\
    Forall2 (fun s e => exists sent,
               e = EvSendTo s [1; 2; 3] 3 (destination_of remote_7410) sent)
            sockets writes /\
    (forall (i : nat) s, sockets !! i = Some s ->
       outcomes !! i =
       Some (os_send_to os (history t ++ take i writes) s [1; 2; 3] 3
               (destination_of remote_7410))) /\
    (success = true <-> true ∈ outcomes).
Proof.
  split.
  - apply (Send_fans_out UDPv6 os [1; 2; 3] 3 any_7400 remote_7410 listed).
    left. vm_compute. reflexivity.
  - apply (Send_fans_out UDPv6 os [1; 2; 3] 3 any_7400 remote_7410
             (snd (OpenOutputChannel UDPv6 os any_7400 listed))).
    + vm_compute. reflexivity.
    + vm_compute. discriminate.
Defined.

(** What C1 amounts to there: the write through the link-local socket
    fails, the one through the other socket is made all the same and
    succeeds, and so does the call. *)
Example Send_with_one_interface_down :
  let t := snd (OpenOutputChannel UDPv6 os any_7400 listed) in
  exists s1 s2,
    output_channel t any_7400 = Some [s1; s2] /\
    Send UDPv6 os [1; 2; 3] 3 any_7400 remote_7410 t =
    (true,
     record_events
       [EvSendTo s1 [1; 2; 3] 3 (destination_of remote_7410) false;
        EvSendTo s2 [1; 2; 3] 3 (destination_of remote_7410) true] t).
Proof. vm_compute. eexists _, _. split; reflexivity. Qed.

(** C3 with a [push_back] that skips duplicates: the wildcard and a
    concrete locator. *)
Lemma NormalizeLocator_expands_the_wildcard_witness :
  ((forall infoIP,
      infoIP ∈ IPFinder_getIPs os (history shared) -> ip_type infoIP = IP6 ->
      mkLocator (kind any_7400) (port any_7400) (address (locator infoIP))
        ∈ NormalizeLocator push_back os shared any_7400) /\
   (forall x, x ∈ NormalizeLocator push_back os shared any_7400 ->
      kind x = kind any_7400 /\ port x = port any_7400 /\
      exists infoIP, infoIP ∈ IPFinder_getIPs os (history shared) /\
                     ip_type infoIP = IP6 /\
                     address x = address (locator infoIP)) /\
   (length (NormalizeLocator push_back os shared any_7400)
    <= length (filter (fun infoIP => ip_type infoIP = IP6)
                      (IPFinder_getIPs os (history shared))))%nat /\
   NormalizeLocator push_back os shared any_7400 `sublist_of`
     map (fun infoIP =>
            mkLocator (kind any_7400) (port any_7400) (address (locator infoIP)))
         (filter (fun infoIP => ip_type infoIP = IP6)
                 (IPFinder_getIPs os (history shared)))) /\
  NormalizeLocator push_back os shared global_7400 = [global_7400].
Proof.
  split.
  - apply (NormalizeLocator_expands_the_wildcard push_back os
             push_back_appends_or_skips_unique shared any_7400).
    reflexivity.
  - apply (NormalizeLocator_expands_the_wildcard push_back os
             push_back_appends_or_skips_unique shared global_7400).
    vm_compute. discriminate.
Defined.

Example NormalizeLocator_wildcard_7400 :
  NormalizeLocator push_back os shared any_7400 =
  [mkLocator UDPv6 7400 link_local; mkLocator UDPv6 7400 global].
Proof. vm_compute. reflexivity. Qed.

(** C4 on the default descriptor and on one whose message size exceeds the
    send buffer. *)
Lemma init_validates_before_starting_witness :
  fst (init shared) = true /\
  snd (init shared) = record_events [EvThreadStart] (set_ioServiceThread true shared) /\
  fst (init oversized) = false /\
  snd (init oversized) = oversized /\
  destroy (snd (init oversized)) = (tt, oversized).
Proof.
  destruct (init_validates_before_starting shared) as (Hiff & _ & _ & Hstart).
  destruct (init_validates_before_starting oversized) as (_ & Hsame & Hjoin & _).
  assert (Hok : fst (init shared) = true).
  { apply Hiff. vm_compute. repeat split; discriminate. }
  assert (Hko : fst (init oversized) = false) by (vm_compute; reflexivity).
  split; [exact Hok|]. split; [exact (proj1 (Hstart Hok))|].
  split; [exact Hko|]. split; [exact (Hsame Hko)|].
  exact (Hjoin Hko eq_refl).
Defined.

(** C5 on channels that the same calls have just opened: an output
    channel, and the input channel of the group [ff02::1] on a system that
    refuses a join the socket has made before. *)
Lemma reopening_never_succeeds_and_keeps_sockets_witness :
  OpenOutputChannel UDPv6 os any_7400
    (snd (OpenOutputChannel UDPv6 os any_7400 listed))
  = (false, snd (OpenOutputChannel UDPv6 os any_7400 listed)) /\
  exists s outcome joins,
    let t := snd (OpenInputChannel UDPv6 os_join_once all_nodes_7400 shared) in
    mInputSockets t !! port all_nodes_7400 = Some s /\
    OpenInputChannel UDPv6 os_join_once all_nodes_7400 t
      = (outcome, record_events joins t) /\
    (joins = [] /\ outcome = Some false \/
     IsLocatorSupported UDPv6 all_nodes_7400 = true /\
     IsMulticastAddress all_nodes_7400 = true /\
     exists joined,
       joined = os_join_group os_join_once (history t) s
                  (Locator_address_v6 all_nodes_7400) /\
       joins = [EvJoinGroup s (Locator_address_v6 all_nodes_7400) joined] /\
       outcome = (if joined then Some false else None)) /\
    mInputSockets (record_events joins t) !! port all_nodes_7400 = Some s /\
    mInputSockets (record_events joins t) = mInputSockets t /\
    mOutputSockets (record_events joins t) = mOutputSockets t /\
    mGranularOutputSockets (record_events joins t) = mGranularOutputSockets t.
Proof.
  split.
  - apply (reopening_never_succeeds_and_keeps_sockets UDPv6 os any_7400
             (snd (OpenOutputChannel UDPv6 os any_7400 listed))).
    vm_compute. eexists. reflexivity.
  - eexists.
    assert (Hs : mInputSockets
                   (snd (OpenInputChannel UDPv6 os_join_once all_nodes_7400 shared))
                   !! port all_nodes_7400
                 = Some (mkSocket 0 (InputOptions 65536 true true)
                           (mkEndpoint address_v6_any 7400)))
      by (vm_compute; reflexivity).
    destruct (proj1 (proj2 (reopening_never_succeeds_and_keeps_sockets UDPv6
                              os_join_once all_nodes_7400
                              (snd (OpenInputChannel UDPv6 os_join_once
                                      all_nodes_7400 shared))))
                _ Hs) as (outcome & joins & Hj).
    exists outcome, joins. split; [exact Hs | exact Hj].
Defined.

(** What C5 amounts to there: the second call is left by the exception. *)
Example reopening_a_joined_group_does_not_return :
  fst (OpenInputChannel UDPv6 os_join_once all_nodes_7400 shared) = Some true /\
  fst (OpenInputChannel UDPv6 os_join_once all_nodes_7400
         (snd (OpenInputChannel UDPv6 os_join_once all_nodes_7400 shared))) = None.
Proof. vm_compute. split; reflexivity. Qed.

(** C6 on an output channel with two sockets and on an input channel, and
    on a transport with no channel at all. *)
Lemma closing_erases_the_channel_witness :
  CloseOutputChannel UDPv6 any_7400 listed = (false, listed) /\
  CloseInputChannel UDPv6 any_7400 listed = (false, listed) /\
  (exists sockets t',
     let t := snd (OpenOutputChannel UDPv6 os any_7400 listed) in
     output_channel t any_7400 = Some sockets /\
     CloseOutputChannel UDPv6 any_7400 t = (true, t') /\
     history t' = history t ++ close_events sockets /\
     output_channel t' any_7400 = None /\
     IsOutputChannelOpen UDPv6 t' any_7400 = false /\
     mInputSockets t' = mInputSockets t /\
     (forall other,
        (if mGranularMode t then any_7400 <> other
         else port any_7400 <> port other) ->
        output_channel t' other = output_channel t other)) /\
  (exists s t',
     let t := snd (OpenInputChannel UDPv6 os all_nodes_7400 listed) in
     mInputSockets t !! port all_nodes_7400 = Some s /\
     CloseInputChannel UDPv6 all_nodes_7400 t = (true, t') /\
     history t' = history t ++ [EvCancel s; EvClose s] /\
     mInputSockets t' = delete (port all_nodes_7400) (mInputSockets t) /\
     IsInputChannelOpen UDPv6 t' all_nodes_7400 = false /\
     mOutputSockets t' = mOutputSockets t /\
     mGranularOutputSockets t' = mGranularOutputSockets t).
Proof.
  split; [|split; [|split]].
  - apply (closing_erases_the_channel UDPv6 any_7400 listed).
    vm_compute. reflexivity.
  - apply (closing_erases_the_channel UDPv6 any_7400 listed).
    vm_compute. reflexivity.
  - apply (closing_erases_the_channel UDPv6 any_7400
             (snd (OpenOutputChannel UDPv6 os any_7400 listed))).
    vm_compute. reflexivity.
  - apply (closing_erases_the_channel UDPv6 all_nodes_7400
             (snd (OpenInputChannel UDPv6 os all_nodes_7400 listed))).
    vm_compute. reflexivity.
Defined.

(** C7 at the group [ff02::1] on port 7400, on a system that refuses a
    join the socket has made before: the first call opens the channel, joins
    and answers [true]; the second is refused the join and is left by the
    exception, the registry as it was. *)
Lemma repeated_multicast_open_joins_unguarded_witness :
  fst (OpenInputChannel UDPv6 os_join_once all_nodes_7400 shared) = Some true /\
  exists s,
    let t := snd (OpenInputChannel UDPv6 os_join_once all_nodes_7400 shared) in
    let group := Locator_address_v6 all_nodes_7400 in
    mInputSockets t !! port all_nodes_7400 = Some s /\
    os_join_group os_join_once (history t) s group = false /\
    OpenInputChannel UDPv6 os_join_once all_nodes_7400 t
      = (None, record_events [EvJoinGroup s group false] t) /\
    mInputSockets (record_events [EvJoinGroup s group false] t) = mInputSockets t.
Proof.
  split; [vm_compute; reflexivity|].
  eexists.
  assert (Hs : mInputSockets
                 (snd (OpenInputChannel UDPv6 os_join_once all_nodes_7400 shared))
                 !! port all_nodes_7400
               = Some (mkSocket 0 (InputOptions 65536 true true)
                         (mkEndpoint address_v6_any 7400)))
    by (vm_compute; reflexivity).
  split; [exact Hs|]. split; [vm_compute; reflexivity|].
  exact (repeated_multicast_open_joins_unguarded UDPv6 os_join_once all_nodes_7400
           (snd (OpenInputChannel UDPv6 os_join_once all_nodes_7400 shared)) _
           eq_refl eq_refl Hs).
Defined.

(** What C7 amounts to on a system that accepts every join: the second call
    joins again and answers [false]. *)
Example repeated_multicast_open_where_joins_repeat :
  fst (OpenInputChannel UDPv6 os all_nodes_7400 shared) = Some true /\
  OpenInputChannel UDPv6 os all_nodes_7400
    (snd (OpenInputChannel UDPv6 os all_nodes_7400 shared))
  = (Some false,
     record_events
       [EvJoinGroup (mkSocket 0 (InputOptions 65536 true true)
                       (mkEndpoint address_v6_any 7400))
          (Locator_address_v6 all_nodes_7400) true]
       (snd (OpenInputChannel UDPv6 os all_nodes_7400 shared))).
Proof. vm_compute. split; reflexivity. Qed.

(** C8 at the remote [2001:db8::1], port 7410: the result is the remote,
    not the wildcard locator of port 7410. *)
Lemma RemoteToMainLocal_returns_the_remote_witness :
  kind remote_7410 = UDPv6 /\
  address remote_7410 <> zero_octets /\
  RemoteToMainLocal UDPv6 of_uint32 remote_7410 = remote_7410 /\
  RemoteToMainLocal UDPv6 of_uint32 remote_7410 <> mkLocator UDPv6 7410 zero_octets.
Proof.
  assert (Hk : kind remote_7410 = UDPv6) by reflexivity.
  assert (Ha : address remote_7410 <> zero_octets) by (vm_compute; discriminate).
  destruct (RemoteToMainLocal_returns_the_remote UDPv6 of_uint32 remote_7410 Hk)
    as [Hsame Hne].
  split; [exact Hk|]. split; [exact Ha|]. split; [exact Hsame|]. exact (Hne Ha).
Defined.

(** C9, the claim as stated, at a UDPv4 locator: it matches itself, and it
    is normalised like a UDPv6 one, the wildcard being expanded over the
    interfaces. *)
Lemma foreign_kind_locator_matches_and_normalises :
  IsLocatorSupported UDPv6 foreign_7400 = false /\
  IsLocatorSupported UDPv6 foreign_any_7400 = false /\
  DoLocatorsMatch shared foreign_7400 foreign_7400 = true /\
  DoLocatorsMatch granular foreign_7400 foreign_7400 = true /\
  NormalizeLocator push_back os shared foreign_7400 = [foreign_7400] /\
  NormalizeLocator push_back os shared foreign_any_7400 =
    [mkLocator UDPv4 7400 link_local; mkLocator UDPv4 7400 global].
Proof. vm_compute. repeat split. Qed.

(** C9 as amended, at the same two locators. *)
Lemma kind_is_tested_by_channel_and_transfer_operations_witness :
  (forall sendBuffer sendBufferSize remoteLocator,
     Send UDPv6 os sendBuffer sendBufferSize foreign_7400 remoteLocator shared
     = (false, shared)) /\
  (forall capacity size remoteLocator,
     Receive UDPv6 (of_uint32 0) os capacity size foreign_7400 remoteLocator shared
     = (false, size, remoteLocator, shared)) /\
  RemoteToMainLocal UDPv6 of_uint32 foreign_7400 = of_uint32 0 /\
  DoLocatorsMatch shared foreign_7400 foreign_7400 = true /\
  NormalizeLocator push_back os shared foreign_7400 = [foreign_7400] /\
  (forall infoIP, infoIP ∈ GetIP6s os (history shared) ->
     mkLocator UDPv4 7400 (address (locator infoIP))
       ∈ NormalizeLocator push_back os shared foreign_any_7400).
Proof.
  assert (Hk : kind foreign_7400 <> UDPv6) by (vm_compute; discriminate).
  assert (Hk' : kind foreign_any_7400 <> UDPv6) by (vm_compute; discriminate).
  destruct (kind_is_tested_by_channel_and_transfer_operations UDPv6 of_uint32
              (of_uint32 0) push_back os push_back_appends_or_skips_unique
              shared foreign_7400 Hk)
    as (_ & Hsend & Hrecv & Hmain & Hrefl & _ & Hsingle & _).
  destruct (kind_is_tested_by_channel_and_transfer_operations UDPv6 of_uint32
              (of_uint32 0) push_back os push_back_appends_or_skips_unique
              shared foreign_any_7400 Hk')
    as (_ & _ & _ & _ & _ & _ & _ & Hexpand).
  split; [exact Hsend|]. split; [exact Hrecv|]. split; [exact Hmain|].
  split; [exact Hrefl|]. split.
  - apply Hsingle. vm_compute. discriminate.
  - exact (Hexpand eq_refl).
Defined.

(** C10 on the transport whose white list holds an address that no local
    interface has. *)
Lemma open_with_no_allowed_interface_registers_nothing_witness :
  exists t',
    OpenOutputChannel UDPv6 os any_7400 unmatched = (true, t') /\
    t' = record_events [EvGetIPs] unmatched /\
    output_channel t' any_7400 = None /\
    IsOutputChannelOpen UDPv6 t' any_7400 = false /\
    forall sendBuffer sendBufferSize remoteLocator,
      Send UDPv6 os sendBuffer sendBufferSize any_7400 remoteLocator t' = (false, t').
Proof.
  apply (open_with_no_allowed_interface_registers_nothing UDPv6 os any_7400 unmatched).
  - reflexivity.
  - vm_compute. discriminate.
  - intros infoIP Hin.
    change (infoIP ∈ [mkInfoIP IP6 "fe80::1" (mkLocator UDPv6 0 link_local);
                      mkInfoIP IP6 "2001:db8::1" (mkLocator UDPv6 0 global)]) in Hin.
    apply elem_of_cons in Hin as [->|Hin].
    + exists (address_v6_of_bytes link_local). split; vm_compute; reflexivity.
    + apply list_elem_of_singleton in Hin as ->.
      exists (address_v6_of_bytes global). split; vm_compute; reflexivity.
  - reflexivity.
  - vm_compute. reflexivity.
Defined.

(** ** The further properties on the small network *)

(** X1 where a system grants one bind and refuses the next: the socket of
    the first interface is not left behind. *)
Lemma failed_open_leaves_the_registries_witness :
  fst (OpenOutputChannel UDPv6 os_one_bind any_7400 listed) = false /\
  history (snd (OpenOutputChannel UDPv6 os_one_bind any_7400 listed)) <> [] /\
  same_registries listed (snd (OpenOutputChannel UDPv6 os_one_bind any_7400 listed)) /\
  same_registries (snd (OpenInputChannel UDPv6 os any_7400 shared))
    (snd (OpenInputChannel UDPv6 os any_7400
            (snd (OpenInputChannel UDPv6 os any_7400 shared)))).
Proof.
  split; [vm_compute; reflexivity|]. split; [vm_compute; discriminate|]. split.
  - apply (failed_open_leaves_the_registries UDPv6 os_one_bind any_7400 listed).
    vm_compute. reflexivity.
  - apply (failed_open_leaves_the_registries UDPv6 os any_7400
             (snd (OpenInputChannel UDPv6 os any_7400 shared))).
    vm_compute. reflexivity.
Defined.

(** X2 at port 7400, seen from port 7401. *)
Lemma open_touches_its_own_key_only_witness :
  output_channel (snd (OpenOutputChannel UDPv6 os any_7400 listed)) any_7401
  = output_channel listed any_7401 /\
  mInputSockets (snd (OpenInputChannel UDPv6 os any_7400 listed)) !! 7401
  = mInputSockets listed !! 7401.
Proof.
  destruct (open_touches_its_own_key_only UDPv6 os any_7400 listed)
    as (Hout & _ & Hin & _).
  split.
  - apply Hout. vm_compute. discriminate.
  - apply Hin. vm_compute. discriminate.
Defined.

(** X3 where a system grants one bind and refuses the next: the
    enumeration, the bind on [fe80::1], the refused bind on [2001:db8::1], and
    the destruction of the socket of the first. *)
Example failed_shared_open_destroys_what_it_bound :
  let o := OutputOptions maximumUDPSocketSize in
  let s1 := mkSocket 0 o (mkEndpoint (address_v6_of_bytes link_local) 7400) in
  OpenOutputChannel UDPv6 os_one_bind any_7400 listed =
  (false,
   record_events
     [EvGetIPs; EvBound s1;
      EvBindFailed o (mkEndpoint (address_v6_of_bytes global) 7400);
      EvDestroy s1] listed).
Proof. vm_compute. reflexivity. Qed.

(** X4 on the default descriptor. *)
Lemma open_output_registers_one_socket_witness :
  (fst (OpenOutputChannel UDPv6 os any_7400 shared) = true <->
   IsOutputChannelOpen UDPv6 (snd (OpenOutputChannel UDPv6 os any_7400 shared))
     any_7400 = true) /\
  (fst (OpenOutputChannel UDPv6 os any_7400 shared) = true ->
   exists s,
     output_channel (snd (OpenOutputChannel UDPv6 os any_7400 shared)) any_7400
       = Some [s] /\
     options s = OutputOptions (mSendBufferSize shared) /\
     local_endpoint s =
       mkEndpoint (if mGranularMode shared then Locator_address_v6 any_7400
                   else address_v6_any)
                  (to_uint16 (port any_7400))).
Proof.
  apply (open_output_registers_one_socket UDPv6 os any_7400 shared).
  - reflexivity.
  - vm_compute. reflexivity.
  - right. reflexivity.
Defined.


Example allowed_addresses_of_the_listed_transport :
  allowed_addresses os listed (GetIP6s os (history listed))
  = [address_v6_of_bytes link_local; address_v6_of_bytes global].
Proof. vm_compute. reflexivity. Qed.

(** X6 in granular mode with the same white list: [2001:db8::99] is turned
    down, the wildcard goes through. *)
Lemma granular_filter_spares_the_wildcard_witness :
  OpenOutputChannel UDPv6 os elsewhere_7400 granular_listed = (false, granular_listed) /\
  exists e,
    history (snd (OpenOutputChannel UDPv6 os any_7400 granular_listed))
    = history granular_listed ++ [e] /\
    let o := OutputOptions (mSendBufferSize granular_listed) in
    let ep := mkEndpoint address_v6_any (to_uint16 (port any_7400)) in
    (e = EvBindFailed o ep /\
     fst (OpenOutputChannel UDPv6 os any_7400 granular_listed) = false \/
     exists h, e = EvBound (mkSocket h o ep) /\
               fst (OpenOutputChannel UDPv6 os any_7400 granular_listed) = true).
Proof.
  split.
  - apply (granular_filter_spares_the_wildcard UDPv6 os elsewhere_7400 granular_listed).
    + reflexivity.
    + vm_compute. discriminate.
    + reflexivity.
    + vm_compute. reflexivity.
    + vm_compute. discriminate.
    + vm_compute. intros Hin. apply elem_of_cons in Hin as [Heq|Hin];
        [discriminate|].
      apply list_elem_of_singleton in Hin. discriminate.
  - apply (granular_filter_spares_the_wildcard UDPv6 os any_7400 granular_listed).
    + reflexivity.
    + vm_compute. discriminate.
    + reflexivity.
    + vm_compute. reflexivity.
    + reflexivity.
Defined.

(** X8 after the channel of port 7400 has been opened on the listed
    transport. *)
Lemma Send_on_an_open_channel_writes_witness :
  exists s sent rest,
    history (snd (Send UDPv6 os [1; 2; 3] 3 any_7400 remote_7410
                    (run_calls UDPv6 (of_uint32 0) os
                       [CallInit; CallOpenOutputChannel any_7400] listed)))
    = history (run_calls UDPv6 (of_uint32 0) os
                 [CallInit; CallOpenOutputChannel any_7400] listed)
      ++ EvSendTo s [1; 2; 3] 3 (destination_of remote_7410) sent :: rest /\
    bound_for_output
      (run_calls UDPv6 (of_uint32 0) os
         [CallInit; CallOpenOutputChannel any_7400] listed)
      (port any_7400) s.
Proof.
  apply (Send_on_an_open_channel_writes UDPv6 (of_uint32 0) os
           [CallInit; CallOpenOutputChannel any_7400]
           maximumMessageSize maximumUDPSocketSize maximumUDPSocketSize false
           [address_v6_of_bytes link_local; address_v6_of_bytes global]
           [1; 2; 3] 3 any_7400 remote_7410).
  - vm_compute. reflexivity.
  - vm_compute. discriminate.
Defined.

(** X9 on the default descriptor, for both directions. *)
Lemma open_then_close_restores_the_registries_witness :
  same_registries shared
    (snd (CloseOutputChannel UDPv6 any_7400
            (snd (OpenOutputChannel UDPv6 os any_7400 shared)))) /\
  fst (CloseInputChannel UDPv6 all_nodes_7400
         (snd (OpenInputChannel UDPv6 os all_nodes_7400 shared))) = true /\
  same_registries shared
    (snd (CloseInputChannel UDPv6 all_nodes_7400
            (snd (OpenInputChannel UDPv6 os all_nodes_7400 shared)))).
Proof.
  destruct (open_then_close_restores_the_registries UDPv6 os any_7400 shared)
    as [Hout _].
  destruct (open_then_close_restores_the_registries UDPv6 os all_nodes_7400 shared)
    as [_ Hin].
  split.
  - apply Hout. vm_compute. reflexivity.
  - apply Hin. vm_compute. reflexivity.
Defined.

(** X10 at the group [ff02::1], on a channel that is open, where the system
    refuses the join. *)
Lemma OpenInputChannel_opens_per_port_and_joins_witness :
  let t := snd (OpenInputChannel UDPv6 os_join_once all_nodes_7400 shared) in
  let outcome := fst (OpenInputChannel UDPv6 os_join_once all_nodes_7400 t) in
  let t' := snd (OpenInputChannel UDPv6 os_join_once all_nodes_7400 t) in
  (outcome = Some true ->
   IsInputChannelOpen UDPv6 t all_nodes_7400 = false /\
   IsInputChannelOpen UDPv6 t' all_nodes_7400 = true) /\
  (outcome = Some false ->
   IsInputChannelOpen UDPv6 t' all_nodes_7400
   = IsInputChannelOpen UDPv6 t all_nodes_7400) /\
  (outcome = None ->
   IsMulticastAddress all_nodes_7400 = true /\
   IsInputChannelOpen UDPv6 t' all_nodes_7400 = true) /\
  (forall other, kind other = UDPv6 -> port other = port all_nodes_7400 ->
     IsInputChannelOpen UDPv6 t' other
     = IsInputChannelOpen UDPv6 t' all_nodes_7400) /\
  exists evs,
    history t' = history t ++ evs /\
    (forall s g joined,
       EvJoinGroup s g joined ∈ evs <->
       IsMulticastAddress all_nodes_7400 = true /\
       mInputSockets t' !! port all_nodes_7400 = Some s /\
       g = Locator_address_v6 all_nodes_7400 /\
       joined = match outcome with Some _ => true | None => false end) /\
    (forall pre s g joined post,
       evs = pre ++ EvJoinGroup s g joined :: post ->
       post = [] /\
       joined = os_join_group os_join_once (history t ++ pre) s g).
Proof.
  apply (OpenInputChannel_opens_per_port_and_joins UDPv6 os_join_once
           all_nodes_7400
           (snd (OpenInputChannel UDPv6 os_join_once all_nodes_7400 shared))).
  reflexivity.
Defined.

(** X11 at ports 7400 and 72936 = 7400 + 65536: two entries, one
    endpoint. *)
Lemma input_ports_alias_modulo_65536_witness :
  mInputSockets
    (run_calls UDPv6 (of_uint32 0) os
       [CallOpenInputChannel any_7400; CallOpenInputChannel any_72936] shared)
    !! 7400
  = Some (mkSocket 0 (InputOptions 65536 true true) (mkEndpoint address_v6_any 7400)) /\
  mInputSockets
    (run_calls UDPv6 (of_uint32 0) os
       [CallOpenInputChannel any_7400; CallOpenInputChannel any_72936] shared)
    !! 72936
  = Some (mkSocket 1 (InputOptions 65536 true true) (mkEndpoint address_v6_any 7400)) /\
  local_endpoint
    (mkSocket 0 (InputOptions 65536 true true) (mkEndpoint address_v6_any 7400))
  = local_endpoint
      (mkSocket 1 (InputOptions 65536 true true) (mkEndpoint address_v6_any 7400)) /\
  options
    (mkSocket 0 (InputOptions 65536 true true) (mkEndpoint address_v6_any 7400))
  = options
      (mkSocket 1 (InputOptions 65536 true true) (mkEndpoint address_v6_any 7400)).
Proof.
  assert (H1 : mInputSockets
                 (run_calls UDPv6 (of_uint32 0) os
                    [CallOpenInputChannel any_7400; CallOpenInputChannel any_72936]
                    shared) !! 7400
               = Some (mkSocket 0 (InputOptions 65536 true true)
                         (mkEndpoint address_v6_any 7400)))
    by (vm_compute; reflexivity).
  assert (H2 : mInputSockets
                 (run_calls UDPv6 (of_uint32 0) os
                    [CallOpenInputChannel any_7400; CallOpenInputChannel any_72936]
                    shared) !! 72936
               = Some (mkSocket 1 (InputOptions 65536 true true)
                         (mkEndpoint address_v6_any 7400)))
    by (vm_compute; reflexivity).
  split; [exact H1|]. split; [exact H2|].
  exact (input_ports_alias_modulo_65536 UDPv6 (of_uint32 0) os
           [CallOpenInputChannel any_7400; CallOpenInputChannel any_72936]
           maximumMessageSize maximumUDPSocketSize maximumUDPSocketSize false []
           7400 72936 _ _ H1 H2 eq_refl).
Defined.

(** X12 on a closed channel, and on an open one with a short buffer. *)
Lemma Receive_refuses_before_reading_witness :
  Receive UDPv6 (of_uint32 0) os 65536 7 any_7400 remote_7410 shared
  = (false, 7, remote_7410, shared) /\
  Receive UDPv6 (of_uint32 0) os 1500 7 any_7400 remote_7410
    (snd (OpenInputChannel UDPv6 os any_7400 shared))
  = (false, 7, remote_7410, snd (OpenInputChannel UDPv6 os any_7400 shared)).
Proof.
  split.
  - apply (Receive_refuses_before_reading UDPv6 (of_uint32 0) os
             65536 7 any_7400 remote_7410 shared).
    left. vm_compute. reflexivity.
  - apply (Receive_refuses_before_reading UDPv6 (of_uint32 0) os
             1500 7 any_7400 remote_7410
             (snd (OpenInputChannel UDPv6 os any_7400 shared))).
    right. vm_compute. reflexivity.
Defined.

(** X13 on an open channel: a hundred bytes from [2001:db8::99]. *)
Lemma Receive_reports_the_completion_witness :
  exists s completion success size' remote',
    mInputSockets (snd (OpenInputChannel UDPv6 os any_7400 shared))
      !! port any_7400 = Some s /\
    completion = os_receive_from os
                   (history (snd (OpenInputChannel UDPv6 os any_7400 shared)))
                   s 65536 /\
    Receive UDPv6 (of_uint32 0) os 65536 7 any_7400 remote_7410
      (snd (OpenInputChannel UDPv6 os any_7400 shared))
    = (success, size', remote',
       record_events [EvReceiveFrom s 65536 completion]
         (snd (OpenInputChannel UDPv6 os any_7400 shared))) /\
    (success = true <-> is_Some completion) /\
    (forall n sender, completion = Some (n, sender) ->
       size' = n mod 2 ^ 32 /\
       port remote' = ep_port sender /\
       address remote' = to_bytes (ep_address sender)) /\
    (completion = None -> size' = 0 /\ remote' = remote_7410).
Proof.
  apply (Receive_reports_the_completion UDPv6 (of_uint32 0) os 65536 7
           any_7400 remote_7410 (snd (OpenInputChannel UDPv6 os any_7400 shared))).
  - vm_compute. reflexivity.
  - vm_compute. discriminate.
Defined.

(** X14 for the sender [2001:db8::99], port 40000. *)
Lemma reply_reaches_the_sender_witness :
  exists sent,
    SendThroughSocket os [1; 2; 3] 3 (EndpointToLocator (of_uint32 0) sender_40000)
      (mkSocket 0 (OutputOptions 65536) (mkEndpoint address_v6_any 7400)) shared
    = (sent,
       record_events
         [EvSendTo (mkSocket 0 (OutputOptions 65536) (mkEndpoint address_v6_any 7400))
            [1; 2; 3] 3 sender_40000 sent] shared).
Proof.
  apply (reply_reaches_the_sender (of_uint32 0) os [1; 2; 3] 3 sender_40000
           (mkSocket 0 (OutputOptions 65536) (mkEndpoint address_v6_any 7400))
           shared).
  - reflexivity.
  - vm_compute. split; [discriminate | reflexivity].
Defined.

(** X16, X19 and X20 at two locators of port 7400, the wildcard and
    [2001:db8::1], in shared mode. *)
Lemma matching_locators_share_their_channels_witness :
  output_channel shared any_7400 = output_channel shared global_7400 /\
  mInputSockets shared !! port any_7400 = mInputSockets shared !! port global_7400 /\
  (kind any_7400 = kind global_7400 ->
   IsOutputChannelOpen UDPv6 shared any_7400
   = IsOutputChannelOpen UDPv6 shared global_7400 /\
   IsInputChannelOpen UDPv6 shared any_7400
   = IsInputChannelOpen UDPv6 shared global_7400).
Proof.
  apply (matching_locators_share_their_channels UDPv6 shared any_7400 global_7400).
  vm_compute. reflexivity.
Defined.

Lemma matching_locators_are_interchangeable_for_output_witness :
  OpenOutputChannel UDPv6 os any_7400 listed
  = OpenOutputChannel UDPv6 os global_7400 listed /\
  CloseOutputChannel UDPv6 any_7400 listed
  = CloseOutputChannel UDPv6 global_7400 listed /\
  Send UDPv6 os [1; 2; 3] 3 any_7400 remote_7410 listed
  = Send UDPv6 os [1; 2; 3] 3 global_7400 remote_7410 listed.
Proof.
  apply (matching_locators_are_interchangeable_for_output UDPv6 os listed
           any_7400 global_7400 [1; 2; 3] 3 remote_7410).
  - vm_compute. reflexivity.
  - reflexivity.
Defined.

Lemma input_side_reads_kind_and_port_witness :
  IsInputChannelOpen UDPv6 shared any_7400
  = IsInputChannelOpen UDPv6 shared global_7400 /\
  CloseInputChannel UDPv6 any_7400 shared
  = CloseInputChannel UDPv6 global_7400 shared /\
  Receive UDPv6 (of_uint32 0) os 65536 7 any_7400 remote_7410 shared
  = Receive UDPv6 (of_uint32 0) os 65536 7 global_7400 remote_7410 shared /\
  (IsMulticastAddress any_7400 = false -> IsMulticastAddress global_7400 = false ->
   OpenInputChannel UDPv6 os any_7400 shared
   = OpenInputChannel UDPv6 os global_7400 shared).
Proof.
  apply (input_side_reads_kind_and_port UDPv6 (of_uint32 0) os shared
           any_7400 global_7400 65536 7 remote_7410).
  - reflexivity.
  - reflexivity.
Defined.

(** X17 after [init] and a few calls. *)
Lemma calls_keep_the_configuration_and_the_thread_witness :
  ioServiceThread
    (run_calls UDPv6 (of_uint32 0) os
       [CallOpenOutputChannel any_7400; CallCloseOutputChannel any_7400]
       (snd (init listed))) = true /\
  exists evs,
    history (snd (destroy
                    (run_calls UDPv6 (of_uint32 0) os
                       [CallOpenOutputChannel any_7400;
                        CallCloseOutputChannel any_7400]
                       (snd (init listed)))))
    = history (run_calls UDPv6 (of_uint32 0) os
                 [CallOpenOutputChannel any_7400; CallCloseOutputChannel any_7400]
                 (snd (init listed))) ++ evs /\
    evs = [EvServiceStop; EvThreadJoin].
Proof.
  apply (calls_keep_the_configuration_and_the_thread UDPv6 (of_uint32 0) os
           [CallOpenOutputChannel any_7400; CallCloseOutputChannel any_7400]
           (snd (init listed))).
  vm_compute. reflexivity.
Defined.

